(** * env: typed access to process environment variables (src/index.ts)

    A shallow embedding of the two exported values of [src/index.ts]:

    - [ok], the start-up validator, which reads the output of a recursive
      [grep] and checks every usage [ENV.X] / [ENV.num.X] it finds against
      the environment;
    - [ENV], a [Proxy] whose [get] trap reads [process.env] and whose [opt]
      and [num] properties are two further proxies.

    Modelling conventions.

    - A JavaScript string is a [string]: a sequence of code units below 256.
    - [process.env] is an object whose own properties are the variables of
      the environment, a [gmap string string], and whose prototype is
      [Object.prototype]: reading [process.env[name]] gives the string of
      the variable when it is set, else the property [Object.prototype]
      has under that name ([toString], [constructor], ...), else
      [undefined].  This is [env_lookup].
    - [console.log] appends one entry to a list of printed lines.
    - [throw] is the [Throw] constructor of [result]; [process.exit (1)] is
      the completion [Exit 1], after which nothing else runs.
    - A JavaScript number produced by [parseInt] is [NaN], an infinity,
      the negative zero or an integer that a double holds exactly: the
      integer [sign * mathInt] of ECMA-262 rounded to the nearest double,
      ties to even. *)

From Stdlib Require Import ZArith Lia String Ascii List.
From Stdlib Require Import Decimal DecimalString DecimalPos DecimalN.
From stdpp Require Import base option list gmap strings.

Local Open Scope Z_scope.

(** ** JavaScript strings *)

Module JsString.

(** [s.split (sep)] for a one-character separator: never the empty list;
    the empty string gives one empty piece. *)
Fixpoint split (sep : ascii) (s : string) : list string :=
  match s with
  | EmptyString => [EmptyString]
  | String c s' =>
      if Ascii.eqb c sep then EmptyString :: split sep s'
      else match split sep s' with
           | [] => [String c EmptyString]
           | piece :: pieces => String c piece :: pieces
           end
  end.

(** [s.substr (0, n)]: the first [n] code units, or all of [s] when it is
    shorter. *)
Definition substr0 (n : nat) (s : string) : string := String.substring 0 n s.

(** [s] without the prefix [p], when it has it. *)
Fixpoint strip_prefix (p s : string) : option string :=
  match p, s with
  | EmptyString, _ => Some s
  | String a p', String b s' =>
      if Ascii.eqb a b then strip_prefix p' s' else None
  | String _ _, EmptyString => None
  end.

End JsString.

(** ** The object [process.env] *)

(** The property names of [Object.prototype] (ECMA-262, with its annex B). *)
Definition object_prototype : list string :=
  ["constructor"; "hasOwnProperty"; "isPrototypeOf"; "propertyIsEnumerable";
   "toLocaleString"; "toString"; "valueOf";
   "__proto__"; "__defineGetter__"; "__defineSetter__";
   "__lookupGetter__"; "__lookupSetter__"].

Definition inherited (name : string) : bool :=
  existsb (String.eqb name) object_prototype.

(** What [process.env[name]] gives: [undefined], the string of a variable,
    or a property of [Object.prototype] (one of its functions or, for
    [__proto__], an object). *)
Inductive env_value : Type :=
| Unset
| Own (v : string)
| Inherited (name : string).

(** [process.env[name]]: a variable of the environment hides the property
    of the prototype with the same name. *)
Definition env_lookup (env : gmap string string) (name : string) : env_value :=
  match env !! name with
  | Some v => Own v
  | None => if inherited name then Inherited name else Unset
  end.

(** [!value]: [undefined] and the empty string are falsy; a function and
    an object are not. *)
Definition falsy (value : env_value) : bool :=
  match value with
  | Unset => true
  | Own EmptyString => true
  | Own (String _ _) => false
  | Inherited _ => false
  end.

(** ** Numbers and [parseInt] *)

(** The numbers [parseInt] can return: [Int z] is the double that holds
    the integer [z]. *)
Inductive number : Type :=
| NaN
| Int (z : Z)
| NegZero
| Infinity (negative : bool).

Definition isNaN (n : number) : bool :=
  match n with
  | NaN => true
  | Int _ | NegZero | Infinity _ => false
  end.

Module ParseInt.

Definition code (c : ascii) : Z := Z.of_N (N_of_ascii c).

(** StrWhiteSpaceChar below 256: TAB, LF, VT, FF, CR, SP and NBSP. *)
Definition is_white_space (c : ascii) : bool :=
  let n := code c in
  ((9 <=? n) && (n <=? 13)) || (n =? 32) || (n =? 160).

Fixpoint trim_start (s : string) : string :=
  match s with
  | String c s' => if is_white_space c then trim_start s' else s
  | EmptyString => EmptyString
  end.

(** The value of a digit: 0-9, then a-z and A-Z for 10-35. *)
Definition digit_value (c : ascii) : option Z :=
  let n := code c in
  if (48 <=? n) && (n <=? 57) then Some (n - 48)
  else if (97 <=? n) && (n <=? 122) then Some (n - 97 + 10)
  else if (65 <=? n) && (n <=? 90) then Some (n - 65 + 10)
  else None.

(** The values of the longest prefix of [s] made of radix-[R] digits. *)
Fixpoint radix_digits (R : Z) (s : string) : list Z :=
  match s with
  | EmptyString => []
  | String c s' =>
      match digit_value c with
      | Some d => if d <? R then d :: radix_digits R s' else []
      | None => []
      end
  end.

Definition mathInt (R : Z) (ds : list Z) : Z :=
  fold_left (fun acc d => acc * R + d) ds 0.

(** Steps 3-4: the sign, and the string without it. *)
Definition strip_sign (s : string) : Z * string :=
  match s with
  | String "-" s' => (-1, s')
  | String "+" s' => (1, s')
  | _ => (1, s)
  end.

(** Steps 6-8 with no radix argument: radix 16 after [0x] or [0X],
    radix 10 otherwise. *)
Definition strip_radix (s : string) : Z * string :=
  match s with
  | String "0" (String "x" s') => (16, s')
  | String "0" (String "X" s') => (16, s')
  | _ => (10, s)
  end.

(** The integer nearest to [z], for [0 < z], among those a double holds:
    [z] itself when it has at most 53 significant bits, else [z] rounded
    at its 53rd bit, a tie going to the even neighbour. *)
Definition nearest_double (z : Z) : Z :=
  let k := Z.log2 z - 52 in
  if k <=? 0 then z
  else
    let q := z / 2 ^ k in
    let r := z mod 2 ^ k in
    let half := 2 ^ (k - 1) in
    let q' :=
      if r <? half then q
      else if half <? r then q + 1
      else if Z.even q then q else q + 1 in
    q' * 2 ^ k.

(** The last step: the Number value for [sign * mathInt], with
    [0 <= mathInt].  A zero keeps the sign; what rounds to 2^1024 or more
    is an infinity. *)
Definition to_Number (sign mathInt : Z) : number :=
  if mathInt =? 0 then (if sign <? 0 then NegZero else Int 0)
  else
    let r := nearest_double mathInt in
    if 2 ^ 1024 <=? r then Infinity (sign <? 0) else Int (sign * r).

(** [parseInt (input)] with one argument, for an input that is a string. *)
Definition parseInt (input : string) : number :=
  let '(sign, s) := strip_sign (trim_start input) in
  let '(R, s) := strip_radix s in
  match radix_digits R s with
  | [] => NaN
  | ds => to_Number sign (mathInt R ds)
  end.

(** [parseInt (value)] for a value read from [process.env].  A value that
    is not a string is first turned into its text: [undefined] for
    [undefined], [function ...] for a function and [[object Object]] for
    an object, none of which has an integer in front. *)
Definition parseInt_value (value : env_value) : number :=
  match value with
  | Own v => parseInt v
  | Unset | Inherited _ => NaN
  end.

End ParseInt.

(** ** The extraction pattern [/ENV\.(opt\.|num\.)?([a-zA-Z0-9_]+)/] *)

Module Pattern.
Import JsString.

(** The class [[a-zA-Z0-9_]]. *)
Definition is_word (c : ascii) : bool :=
  let n := ParseInt.code c in
  ((97 <=? n) && (n <=? 122)) || ((65 <=? n) && (n <=? 90))
  || ((48 <=? n) && (n <=? 57)) || (n =? 95).

(** The longest prefix in the class: what the greedy [[a-zA-Z0-9_]+]
    captures when it is not empty. *)
Fixpoint word (s : string) : string :=
  match s with
  | String c s' => if is_word c then String c (word s') else EmptyString
  | EmptyString => EmptyString
  end.

(** The modifier alternative [m] followed by an identifier. *)
Definition with_modifier (m r : string) : option (option string * string) :=
  match strip_prefix m r with
  | Some r' =>
      match word r' with
      | EmptyString => None
      | w => Some (Some m, w)
      end
  | None => None
  end.

(** A match that starts at the first character of [s].  The optional group
    is tried first with [opt.], then with [num.], and is left out (its
    capture [undefined]) when neither leads to a match. *)
Definition match_here (s : string) : option (option string * string) :=
  match strip_prefix "ENV." s with
  | None => None
  | Some r =>
      match with_modifier "opt." r with
      | Some m => Some m
      | None =>
          match with_modifier "num." r with
          | Some m => Some m
          | None =>
              match word r with
              | EmptyString => None
              | w => Some (None, w)
              end
          end
      end
  end.

(** [pattern.exec (s)] without the [g] flag: the match at the leftmost
    position that has one; the captures [mod] and [env_var]. *)
Fixpoint exec (s : string) : option (option string * string) :=
  match match_here s with
  | Some m => Some m
  | None =>
      match s with
      | EmptyString => None
      | String _ s' => exec s'
      end
  end.

End Pattern.

(** ** The validator [ok] *)

(** How the body of the [for ... of] loop ends: at its closing brace
    ([Next], the loop goes on), by [return] (the callback ends) or by
    [process.exit (code)]. *)
Inductive completion : Type :=
| Next
| Return
| Exit (code : Z).

(** The host process after a callback. *)
Inductive status : Type :=
| Running
| Exited (code : Z).

(** What the child process delivers: a chunk on its standard output or on
    its standard error. *)
Inductive event : Type :=
| Stdout (data : string)
| Stderr (data : string).

Section Validator.

(** [util.inspect], applied to a value read from [process.env]; it belongs
    to the Node library and is left abstract. *)
Variable inspect : env_value -> string.

Definition is_mod (modifier : option string) (m : string) : bool :=
  match modifier with
  | Some s => String.eqb s m
  | None => false
  end.

Definition num_diagnostic (env_var : string) (value : env_value) : string :=
  "ENV found required field num." +:+ env_var +:+ ", but given value "
    +:+ inspect value +:+ " is incompatible.".

Definition str_diagnostic (env_var : string) (value : env_value) : string :=
  "ENV found required field " +:+ env_var +:+ ", but given value "
    +:+ inspect value +:+ " is incompatible.".

Definition parse_diagnostic (line : string) : string :=
  "Could not parse ENV grep result: " +:+ JsString.substr0 100 line.

(** [!value || isNaN (parseInt (value))] *)
Definition num_incompatible (value : env_value) : bool :=
  falsy value || isNaN (ParseInt.parseInt_value value).

(** One iteration of the loop over the lines of a chunk: the printed
    lines and the way the iteration ends. *)
Definition check_line (env : gmap string string) (line : string)
  : list string * completion :=
  match line with
  | EmptyString => ([], Return)
  | _ =>
      match Pattern.exec line with
      | None => ([parse_diagnostic line], Return)
      | Some (modifier, env_var) =>
          if is_mod modifier "opt." then ([], Return)
          else
            let value := env_lookup env env_var in
            if is_mod modifier "num." then
              if num_incompatible value
              then ([num_diagnostic env_var value], Exit 1)
              else ([], Next)
            else
              if falsy value
              then ([str_diagnostic env_var value], Exit 1)
              else ([], Next)
      end
  end.

(** [for (const line of lines) { ... }] *)
Fixpoint for_lines (env : gmap string string) (lines : list string)
  : list string * completion :=
  match lines with
  | [] => ([], Next)
  | line :: rest =>
      match check_line env line with
      | (out, Next) =>
          let '(out', c) := for_lines env rest in (out ++ out', c)
      | (out, c) => (out, c)
      end
  end.

Definition after (c : completion) : status :=
  match c with
  | Exit code => Exited code
  | Next | Return => Running
  end.

(** The callback of [child.stdout.on ('data', ...)]. *)
Definition on_stdout (env : gmap string string) (data : string)
  : list string * status :=
  let '(out, c) := for_lines env (JsString.split "010" data) in
  (out, after c).

(** The callback of [child.stderr.on ('data', ...)]. *)
Definition on_stderr (data : string) : list string * status :=
  (["Error while grepping for ENV variables: " +:+ data], Running).

Definition on_event (env : gmap string string) (ev : event)
  : list string * status :=
  match ev with
  | Stdout data => on_stdout env data
  | Stderr data => on_stderr data
  end.

(** [ok ()]: it starts the search as a child process and registers the two
    callbacks.  What the host process prints and how it stands afterwards
    is a function of the events of the child, taken in the order they
    arrive: callbacks fire as long as the process has not exited.  (The
    choice of the directory to search is part of what the child is given
    and is not modelled.) *)
Fixpoint ok (env : gmap string string) (events : list event)
  : list string * status :=
  match events with
  | [] => ([], Running)
  | ev :: later =>
      match on_event env ev with
      | (out, Running) =>
          let '(out', s) := ok env later in (out ++ out', s)
      | (out, Exited code) => (out, Exited code)
      end
  end.

End Validator.

(** ** The accessor [ENV] *)

Inductive exn : Type :=
| Error (message : string).

Inductive result (A : Type) : Type :=
| Ok (a : A)
| Throw (e : exn).

Arguments Ok {A} a.
Arguments Throw {A} e.

(** The values a property read of [ENV] or of one of its views can give. *)
Inductive js_value : Type :=
| Undefined
| Str (s : string)
| Num (n : number)
| Prototype (name : string)
| OptView
| NumView
| OkFunction.

(** [new Error (`Environment variable ${name} is undefined.`)] *)
Definition MissingRequiredVariable (name : string) : exn :=
  Error ("Environment variable " +:+ name +:+ " is undefined.").

(** [new Error ('Cannot set env value.')] *)
Definition ImmutableAccessError : exn :=
  Error "Cannot set env value.".

(** A value read from [process.env] among the values of the accessor;
    [Prototype name] is the property [Object.prototype] has under
    [name]. *)
Definition of_env_value (value : env_value) : js_value :=
  match value with
  | Unset => Undefined
  | Own v => Str v
  | Inherited name => Prototype name
  end.

(** [process.env[name]] as a value. *)
Definition process_env (env : gmap string string) (name : string) : js_value :=
  of_env_value (env_lookup env name).

Module ENV.

(** The [set] traps take the environment and give it back: a trap that
    wrote to [process.env] would return another map. *)

Module opt.

Definition get (env : gmap string string) (name : string) : result js_value :=
  Ok (process_env env name).

Definition set (env : gmap string string) (name : string) (value : js_value)
  : result unit * gmap string string :=
  (Throw ImmutableAccessError, env).

End opt.

Module num.

Definition get (env : gmap string string) (name : string) : result js_value :=
  match env_lookup env name with
  | Unset => Throw (MissingRequiredVariable name)
  | v => Ok (Num (ParseInt.parseInt_value v))
  end.

Definition set (env : gmap string string) (name : string) (value : js_value)
  : result unit * gmap string string :=
  (Throw ImmutableAccessError, env).

End num.

(** [['num', 'opt', 'ok'].includes (name)] *)
Definition reserved (name : string) : bool :=
  existsb (String.eqb name) ["num"; "opt"; "ok"].

(** [Reflect.get (target, name, receiver)] on the target
    [{opt, num, ok}]. *)
Definition target_get (name : string) : js_value :=
  if String.eqb name "opt" then OptView
  else if String.eqb name "num" then NumView
  else if String.eqb name "ok" then OkFunction
  else Undefined.

Definition get (env : gmap string string) (name : string) : result js_value :=
  if reserved name then Ok (target_get name)
  else
    match env_lookup env name with
    | Unset => Throw (MissingRequiredVariable name)
    | v => Ok (of_env_value v)
    end.

Definition set (env : gmap string string) (name : string) (value : js_value)
  : result unit * gmap string string :=
  (Throw ImmutableAccessError, env).

End ENV.

(** The three properties a program can read or assign through. *)
Inductive view : Type :=
| Direct
| Optional
| Numeric.

Definition lookup_through (w : view) (env : gmap string string) (name : string)
  : result js_value :=
  match w with
  | Direct => ENV.get env name
  | Optional => ENV.opt.get env name
  | Numeric => ENV.num.get env name
  end.

Definition assign_through (w : view) (env : gmap string string) (name : string)
    (value : js_value) : result unit * gmap string string :=
  match w with
  | Direct => ENV.set env name value
  | Optional => ENV.opt.set env name value
  | Numeric => ENV.num.set env name value
  end.

(** ** Auxiliary definitions for the statements and their examples *)

(** [util.inspect] on [undefined], on a string that has no quote, no
    backslash and no control character (the string between single
    quotes) and on a function that carries the name of its property. *)
Definition inspect_plain (value : env_value) : string :=
  match value with
  | Unset => "undefined"
  | Own s => "'" +:+ s +:+ "'"
  | Inherited name => "[Function: " +:+ name +:+ "]"
  end.

(** The line feed, and a chunk made of lines that each end with one. *)
Definition LF : string := String "010" EmptyString.

Definition chunk (lines : list string) : string :=
  fold_right (fun line data => line +:+ LF +:+ data) EmptyString lines.

(** The digits of a decimal numeral, most significant first. *)
Fixpoint uint_digits (d : Decimal.uint) : list Z :=
  match d with
  | Decimal.Nil => []
  | Decimal.D0 d => 0 :: uint_digits d
  | Decimal.D1 d => 1 :: uint_digits d
  | Decimal.D2 d => 2 :: uint_digits d
  | Decimal.D3 d => 3 :: uint_digits d
  | Decimal.D4 d => 4 :: uint_digits d
  | Decimal.D5 d => 5 :: uint_digits d
  | Decimal.D6 d => 6 :: uint_digits d
  | Decimal.D7 d => 7 :: uint_digits d
  | Decimal.D8 d => 8 :: uint_digits d
  | Decimal.D9 d => 9 :: uint_digits d
  end.

(** A variable that is undefined, or empty, in the environment. *)
Definition absent (value : option string) : Prop :=
  value = None ∨ value = Some EmptyString.

(** A line the loop steps over: nothing printed, next line. *)
Definition passes (inspect : env_value → string) (env : gmap string string)
    (line : string) : Prop :=
  check_line inspect env line = ([], Next).

(** ** The search pattern given to [grep] *)

(** [s] starts with a character of the class [[a-zA-Z0-9_]]. *)
Definition starts_word (s : string) : bool :=
  match s with
  | String c _ => Pattern.is_word c
  | EmptyString => false
  end.

(** Every character of [w] is in the class. *)
Definition all_word (w : string) : bool :=
  forallb Pattern.is_word (list_ascii_of_string w).

(** The text the first capture stands for; nothing when it is [undefined]. *)
Definition modifier_text (modifier : option string) : string :=
  match modifier with
  | Some m => m
  | None => EmptyString
  end.

(** No match of the extraction pattern starts inside [pre] when [pre] is
    followed by [s]. *)
Fixpoint no_match_before (pre s : string) : bool :=
  match pre with
  | EmptyString => true
  | String c pre' =>
      match Pattern.match_here (pre +:+ s) with
      | Some _ => false
      | None => no_match_before pre' s
      end
  end.

Module Grep.

(** [ENV\.(opt\.|num\.)?[a-zA-Z0-9_]+] has a match at the start of [s]. *)
Definition usage_here (s : string) : bool :=
  match JsString.strip_prefix "ENV." s with
  | None => false
  | Some r =>
      starts_word r
      || match JsString.strip_prefix "opt." r with
         | Some r' => starts_word r'
         | None => false
         end
      || match JsString.strip_prefix "num." r with
         | Some r' => starts_word r'
         | None => false
         end
  end.

(** The same after a character that the bracket expression in front of
    [ENV] accepts; [boundary] is that bracket expression as [grep] reads
    it. *)
Fixpoint usage_after (boundary : ascii → bool) (s : string) : bool :=
  match s with
  | EmptyString => false
  | String c s' => (boundary c && usage_here s') || usage_after boundary s'
  end.

(** A line [grep -E '(^|[^\w])ENV\.(opt\.|num\.)?[a-zA-Z0-9_]+'] selects. *)
Definition selects (boundary : ascii → bool) (line : string) : bool :=
  usage_here line || usage_after boundary line.

End Grep.

(** The requirement of a usage is not met by the environment: a plain usage
    whose variable is undefined or empty, or a numeric usage whose variable
    is undefined, empty or set to a value [parseInt] makes [NaN] of. *)
Definition unmet (env : gmap string string) (modifier : option string)
    (env_var : string) : Prop :=
  (modifier = None ∧ absent (env !! env_var))
  ∨ (modifier = Some "num."
     ∧ (absent (env !! env_var)
        ∨ ∃ v, env !! env_var = Some v ∧ ParseInt.parseInt v = NaN)).

(** The line printed for an unmet usage. *)
Definition diagnostic (inspect : env_value → string)
    (env : gmap string string) (modifier : option string)
    (env_var : string) : string :=
  match modifier with
  | None => str_diagnostic inspect env_var (env_lookup env env_var)
  | Some _ => num_diagnostic inspect env_var (env_lookup env env_var)
  end.

(** No character of [s] is [sep]. *)
Fixpoint free_of (sep : ascii) (s : string) : bool :=
  match s with
  | EmptyString => true
  | String c s' => negb (Ascii.eqb c sep) && free_of sep s'
  end.

Definition is_stdout (ev : event) : bool :=
  match ev with
  | Stdout _ => true
  | Stderr _ => false
  end.

(** [-n] for a number. *)
Definition negate (n : number) : number :=
  match n with
  | NaN => NaN
  | Int 0 => NegZero
  | Int z => Int (- z)
  | NegZero => Int 0
  | Infinity negative => Infinity (negb negative)
  end.

(** * Properties *)

(** ** Strings and the pattern *)

Lemma append_nil (s : string) : EmptyString +:+ s = s.
Proof. reflexivity. Qed.

Lemma append_cons (c : ascii) (s t : string) :
  String c s +:+ t = String c (s +:+ t).
Proof. reflexivity. Qed.

Lemma substr0_prefix (n : nat) (s : string) :
  ∃ rest, s = JsString.substr0 n s +:+ rest
          ∧ String.length (JsString.substr0 n s) = Nat.min n (String.length s).
Proof.
  unfold JsString.substr0. revert n.
  induction s as [|c s IH]; intros [|n]; simpl.
  - by exists EmptyString.
  - by exists EmptyString.
  - by exists (String c s).
  - destruct (IH n) as (rest & Hs & Hlen).
    exists rest. rewrite append_cons, <- Hs, Hlen. done.
Qed.

Lemma match_here_empty : Pattern.match_here EmptyString = None.
Proof. reflexivity. Qed.

Lemma exec_here (s : string) (m : option string * string) :
  Pattern.match_here s = Some m → Pattern.exec s = Some m.
Proof.
  intros H. destruct s as [|c s]; [discriminate H|].
  change (Pattern.exec (String c s)) with
    (match Pattern.match_here (String c s) with
     | Some m => Some m
     | None => Pattern.exec s
     end).
  by rewrite H.
Qed.

Lemma exec_skip (c : ascii) (s : string) :
  Pattern.match_here (String c s) = None →
  Pattern.exec (String c s) = Pattern.exec s.
Proof.
  intros H.
  change (Pattern.exec (String c s)) with
    (match Pattern.match_here (String c s) with
     | Some m => Some m
     | None => Pattern.exec s
     end).
  by rewrite H.
Qed.

(** [exec] finds the leftmost position with a match. *)
Lemma exec_leftmost (line : string) (m : option string * string) :
  Pattern.exec line = Some m →
  ∃ pre s, line = pre +:+ s
           ∧ Pattern.match_here s = Some m
           ∧ ∀ p q, pre = p +:+ q → q ≠ EmptyString →
                    Pattern.match_here (q +:+ s) = None.
Proof.
  induction line as [|c line IH]; intros Hexec.
  - discriminate.
  - destruct (Pattern.match_here (String c line)) as [m'|] eqn:Hhere.
    + rewrite (exec_here _ _ Hhere) in Hexec. injection Hexec as ->.
      exists EmptyString, (String c line). split; [done|]. split; [done|].
      intros p q Hpq Hq. destruct p.
      * rewrite append_nil in Hpq. by subst q.
      * rewrite append_cons in Hpq. discriminate.
    + rewrite (exec_skip _ _ Hhere) in Hexec.
      destruct (IH Hexec) as (pre & s & -> & Hs & Hleft).
      exists (String c pre), s. split; [done|]. split; [done|].
      intros p q Hpq Hq. destruct p as [|c' p].
      * rewrite append_nil in Hpq. subst q. exact Hhere.
      * rewrite append_cons in Hpq. injection Hpq as -> Hpre.
        by apply (Hleft p q).
Qed.

(** Every string that has a match somewhere is parsed: [exec] fails only on
    lines with no usage at all. *)
Lemma exec_complete (pre s : string) (m : option string * string) :
  Pattern.match_here s = Some m → ∃ m', Pattern.exec (pre +:+ s) = Some m'.
Proof.
  intros Hs. induction pre as [|c pre IH].
  - exists m. by apply exec_here.
  - rewrite append_cons.
    destruct (Pattern.match_here (String c (pre +:+ s))) as [m'|] eqn:Hhere.
    + exists m'. by apply exec_here.
    + rewrite (exec_skip _ _ Hhere). exact IH.
Qed.

(** The first capture is [undefined], [opt.] or [num.]. *)
Lemma match_here_modifier (s : string) (modifier : option string) (env_var : string) :
  Pattern.match_here s = Some (modifier, env_var) →
  (modifier = None ∨ modifier = Some "opt." ∨ modifier = Some "num.")
  ∧ env_var ≠ EmptyString.
Proof.
  unfold Pattern.match_here, Pattern.with_modifier.
  destruct (JsString.strip_prefix "ENV." s) as [r|]; [|discriminate].
  destruct (JsString.strip_prefix "opt." r) as [r1|].
  - destruct (Pattern.word r1) eqn:Hw1.
    + destruct (JsString.strip_prefix "num." r) as [r2|].
      * destruct (Pattern.word r2) eqn:Hw2.
        -- destruct (Pattern.word r); [discriminate|].
           intros [= <- <-]. auto.
        -- intros [= <- <-]. auto.
      * destruct (Pattern.word r); [discriminate|].
        intros [= <- <-]. auto.
    + intros [= <- <-]. auto.
  - destruct (JsString.strip_prefix "num." r) as [r2|].
    + destruct (Pattern.word r2) eqn:Hw2.
      * destruct (Pattern.word r); [discriminate|].
        intros [= <- <-]. auto.
      * intros [= <- <-]. auto.
    + destruct (Pattern.word r); [discriminate|].
      intros [= <- <-]. auto.
Qed.

(** ** [parseInt] *)

(** With no white space in front, no sign and no [0x], [parseInt] reads the
    leading decimal digits. *)
Lemma parseInt_plain (s : string) :
  ParseInt.trim_start s = s →
  ParseInt.strip_sign s = (1, s) →
  ParseInt.strip_radix s = (10, s) →
  ParseInt.parseInt s =
    match ParseInt.radix_digits 10 s with
    | [] => NaN
    | ds => ParseInt.to_Number 1 (ParseInt.mathInt 10 ds)
    end.
Proof.
  intros Htrim Hsign Hradix. unfold ParseInt.parseInt.
  by rewrite Htrim, Hsign, Hradix.
Qed.

(** Up to 2^53 every integer is a double. *)
Lemma nearest_double_exact (z : Z) :
  0 < z <= 2 ^ 53 → ParseInt.nearest_double z = z.
Proof.
  intros [Hpos Hle]. destruct (decide (z = 2 ^ 53)) as [->|Hne]; [done|].
  unfold ParseInt.nearest_double.
  assert (Z.log2 z < 53) by (apply Z.log2_lt_pow2; lia).
  destruct (Z.leb_spec (Z.log2 z - 52) 0); [done | lia].
Qed.

Lemma to_Number_exact (z : Z) :
  0 <= z <= 2 ^ 53 → ParseInt.to_Number 1 z = Int z.
Proof.
  intros [Hpos Hle]. unfold ParseInt.to_Number.
  destruct (Z.eqb_spec z 0) as [->|Hne]; [done|].
  rewrite nearest_double_exact by lia.
  assert (2 ^ 53 < 2 ^ 1024) by (by apply Z.pow_lt_mono_r).
  destruct (Z.leb_spec (2 ^ 1024) z); [lia|]. by destruct z.
Qed.

(** Whatever the digits, the result is a number. *)
Lemma to_Number_not_NaN (sign z : Z) : isNaN (ParseInt.to_Number sign z) = false.
Proof.
  unfold ParseInt.to_Number. destruct (z =? 0); [by destruct (sign <? 0)|].
  simpl. by destruct (2 ^ 1024 <=? ParseInt.nearest_double z).
Qed.

Lemma strip_radix_decimal (c : ascii) (s : string) :
  c ≠ "x"%char → c ≠ "X"%char →
  ParseInt.strip_radix (String "0" (String c s)) = (10, String "0" (String c s)).
Proof.
  intros Hx HX. unfold ParseInt.strip_radix.
  destruct c as [[] [] [] [] [] [] [] []]; done.
Qed.

Lemma radix_digits_numeral (d : Decimal.uint) (rest : string) :
  ParseInt.radix_digits 10 (NilEmpty.string_of_uint d +:+ rest)
  = uint_digits d ++ ParseInt.radix_digits 10 rest.
Proof.
  induction d; [done | ..]; simpl NilEmpty.string_of_uint;
    rewrite append_cons; simpl; by rewrite IHd.
Qed.

Lemma fold_digits_revapp (d d' : Decimal.uint) :
  Z.of_N (DecimalPos.Unsigned.of_lu (Decimal.revapp d d'))
  = fold_left (λ acc x, acc * 10 + x) (uint_digits d)
      (Z.of_N (DecimalPos.Unsigned.of_lu d')).
Proof.
  revert d'. induction d; intros d'; [done | ..];
    simpl Decimal.revapp; rewrite IHd; simpl uint_digits; simpl fold_left;
    f_equal; simpl DecimalPos.Unsigned.of_lu; lia.
Qed.

Lemma mathInt_numeral (d : Decimal.uint) :
  ParseInt.mathInt 10 (uint_digits d) = Z.of_N (N.of_uint d).
Proof.
  unfold ParseInt.mathInt, N.of_uint.
  rewrite DecimalPos.Unsigned.of_uint_alt. unfold Decimal.rev.
  by rewrite fold_digits_revapp.
Qed.

(** A decimal numeral followed by anything that does not go on with a
    digit is read as the number it denotes; the one exception is the lone
    [0] followed by [x] or [X], which starts a hexadecimal numeral. *)
Lemma parseInt_numeral (d : Decimal.uint) (rest : string) :
  d ≠ Decimal.Nil →
  ParseInt.radix_digits 10 rest = [] →
  (d = Decimal.D0 Decimal.Nil →
   ∀ r, rest ≠ String "x" r ∧ rest ≠ String "X" r) →
  ParseInt.parseInt (NilEmpty.string_of_uint d +:+ rest)
  = ParseInt.to_Number 1 (Z.of_N (N.of_uint d)).
Proof.
  intros Hd Hrest Hhex.
  rewrite parseInt_plain.
  - rewrite radix_digits_numeral, Hrest, app_nil_r, <- mathInt_numeral.
    by destruct d.
  - by destruct d.
  - by destruct d.
  - destruct d as [|d|d|d|d|d|d|d|d|d|d]; try done.
    simpl NilEmpty.string_of_uint. rewrite append_cons.
    destruct d; try done.
    simpl NilEmpty.string_of_uint. rewrite append_nil.
    destruct rest as [|c rest]; [done|].
    destruct (Hhex eq_refl rest) as [Hx HX].
    apply strip_radix_decimal; congruence.
Qed.

(** The number every natural number prints as is read back. *)
Lemma parseInt_of_N (n : N) (rest : string) :
  ParseInt.radix_digits 10 rest = [] →
  (n = 0%N → ∀ r, rest ≠ String "x" r ∧ rest ≠ String "X" r) →
  ParseInt.parseInt (NilEmpty.string_of_uint (N.to_uint n) +:+ rest)
  = ParseInt.to_Number 1 (Z.of_N n).
Proof.
  intros Hrest Hhex.
  rewrite parseInt_numeral, DecimalN.Unsigned.of_to; [done | | done |].
  - destruct n; [done|]. apply DecimalPos.Unsigned.to_uint_nonnil.
  - intros Hd. apply Hhex. apply DecimalN.Unsigned.to_uint_inj. by rewrite Hd.
Qed.

(** A string that starts with a character that is neither white space, a
    sign nor a decimal digit has no integer in front. *)
Lemma parseInt_no_leading_digit (c : ascii) (s : string) :
  ParseInt.is_white_space c = false →
  c ≠ "+"%char → c ≠ "-"%char →
  ParseInt.radix_digits 10 (String c s) = [] →
  ParseInt.parseInt (String c s) = NaN.
Proof.
  intros Hws Hplus Hminus Hdigits.
  rewrite parseInt_plain.
  - by rewrite Hdigits.
  - simpl. by rewrite Hws.
  - unfold ParseInt.strip_sign.
    destruct c as [[] [] [] [] [] [] [] []]; done.
  - unfold ParseInt.strip_radix.
    destruct c as [[] [] [] [] [] [] [] []]; done.
Qed.

(** ** The loop over the lines of a chunk *)

Section ValidatorFacts.

Variable inspect : env_value → string.
Variable env : gmap string string.

Lemma for_lines_passes (pre rest : list string) :
  Forall (passes inspect env) pre →
  for_lines inspect env (pre ++ rest) = for_lines inspect env rest.
Proof.
  induction 1 as [|line pre Hline _ IH]; [done|].
  simpl. rewrite Hline, IH. by destruct (for_lines inspect env rest).
Qed.

Lemma for_lines_stop (line : string) (rest : list string)
    (out : list string) (c : completion) :
  check_line inspect env line = (out, c) → c ≠ Next →
  for_lines inspect env (line :: rest) = (out, c).
Proof. intros Hline Hc. simpl. rewrite Hline. by destruct c. Qed.

Lemma on_stdout_stop (data : string) (pre post : list string) (line : string)
    (out : list string) (c : completion) :
  JsString.split "010" data = pre ++ line :: post →
  Forall (passes inspect env) pre →
  check_line inspect env line = (out, c) → c ≠ Next →
  on_stdout inspect env data = (out, after c).
Proof.
  intros Hsplit Hpre Hline Hc. unfold on_stdout.
  by rewrite Hsplit, (for_lines_passes _ _ Hpre), (for_lines_stop _ _ _ _ Hline Hc).
Qed.

Lemma check_line_match (line : string) (modifier : option string) (env_var : string) :
  Pattern.exec line = Some (modifier, env_var) →
  check_line inspect env line =
    if is_mod modifier "opt." then ([], Return)
    else if is_mod modifier "num." then
      if num_incompatible (env_lookup env env_var)
      then ([num_diagnostic inspect env_var (env_lookup env env_var)], Exit 1)
      else ([], Next)
    else
      if falsy (env_lookup env env_var)
      then ([str_diagnostic inspect env_var (env_lookup env env_var)], Exit 1)
      else ([], Next).
Proof.
  intros Hexec. unfold check_line. destruct line; [discriminate|].
  by rewrite Hexec.
Qed.

End ValidatorFacts.

(** ** The validator *)

(** C1, the claim as stated fails on the names [process.env] inherits:
    with nothing set, the variable [toString] is absent from the
    environment and the usage [ENV.toString] has no modifier, yet
    [process.env.toString] is a function, which is not falsy: the
    validator prints nothing and the process keeps running. *)
Lemma ok_plain_inherited_name_passes :
  (∅ : gmap string string) !! "toString" = None
  ∧ Pattern.exec "a.ts:ENV.toString" = Some (None, "toString")
  ∧ on_stdout inspect_plain ∅ (chunk ["a.ts:ENV.toString"]) = ([], Running).
Proof. repeat split. Qed.

(** C1, amended.  A line of a chunk that the loop reaches and whose
    extracted usage is unmet -- no modifier and the variable empty, or
    undefined with a name that is not a property name of
    [Object.prototype]; or the modifier [num.] and the variable undefined,
    empty or with a value that [parseInt] turns into [NaN] -- prints one
    diagnostic, which names the variable and shows the value found, and
    exits the process with status 1: the lines after it and the events
    after the chunk are not processed. *)
Theorem ok_unmet_requirement_exits
    (inspect : env_value → string) (env : gmap string string)
    (data : string) (pre post : list string) (line : string)
    (modifier : option string) (env_var : string) (later : list event) :
  JsString.split "010" data = pre ++ line :: post →
  Forall (passes inspect env) pre →
  Pattern.exec line = Some (modifier, env_var) →
  (modifier = None
   ∧ (env !! env_var = Some EmptyString
      ∨ (env !! env_var = None ∧ inherited env_var = false)))
  ∨ (modifier = Some "num."
     ∧ (absent (env !! env_var)
        ∨ ∃ v, env !! env_var = Some v ∧ ParseInt.parseInt v = NaN)) →
  let diagnostic :=
    match modifier with
    | None => str_diagnostic inspect env_var (env_lookup env env_var)
    | Some _ => num_diagnostic inspect env_var (env_lookup env env_var)
    end in
  check_line inspect env line = ([diagnostic], Exit 1)
  ∧ on_stdout inspect env data = ([diagnostic], Exited 1)
  ∧ ok inspect env (Stdout data :: later) = ([diagnostic], Exited 1).
Proof.
  intros Hsplit Hpre Hexec Hunmet diagnostic.
  assert (Hline : check_line inspect env line = ([diagnostic], Exit 1)).
  { rewrite (check_line_match _ _ _ _ _ Hexec). subst diagnostic.
    unfold num_incompatible, env_lookup.
    destruct Hunmet as [[-> Habs] | [-> Hnum]]; simpl.
    - by destruct Habs as [-> | [-> ->]].
    - destruct Hnum as [[-> | ->] | (v & -> & Hnan)]; simpl.
      + by destruct (inherited env_var).
      + done.
      + by rewrite Hnan, orb_true_r. }
  assert (Hdata : on_stdout inspect env data = ([diagnostic], Exited 1)).
  { by rewrite (on_stdout_stop _ _ _ _ _ _ _ _ Hsplit Hpre Hline). }
  split; [done|]. split; [done|].
  simpl. by rewrite Hdata.
Qed.

Lemma ok_unmet_requirement_exits_witness :
  on_stdout inspect_plain (<["PORT" := "http"]> ∅)
    (chunk ["a.ts:const p = ENV.num.PORT"; "b.ts:const h = ENV.HOST"])
  = (["ENV found required field num.PORT, but given value 'http' is incompatible."],
     Exited 1).
Proof.
  destruct (ok_unmet_requirement_exits inspect_plain (<["PORT" := "http"]> ∅)
              (chunk ["a.ts:const p = ENV.num.PORT"; "b.ts:const h = ENV.HOST"])
              [] ["b.ts:const h = ENV.HOST"; ""] "a.ts:const p = ENV.num.PORT"
              (Some "num.") "PORT" []) as (_ & Hdata & _).
  - reflexivity.
  - constructor.
  - reflexivity.
  - right. split; [reflexivity|]. right. exists "http". split; reflexivity.
  - exact Hdata.
Defined.

(** C4, as the code has it.  A line whose modifier is [opt.] is not looked
    up and prints nothing, but it ends the callback: the lines after it in
    the chunk are not checked.  Here [BAZ] is optional and unset, [FOO] is
    required and unset; the chunk with both lines leaves the process
    running with nothing printed, the chunk with the second line alone
    exits. *)
Theorem ok_opt_line_hides_later_lines (inspect : env_value → string) :
  on_stdout inspect ∅ (chunk ["a.ts:ENV.opt.BAZ"; "a.ts:ENV.FOO"])
  = ([], Running)
  ∧ on_stdout inspect ∅ (chunk ["a.ts:ENV.FOO"])
    = ([str_diagnostic inspect "FOO" Unset], Exited 1).
Proof. split; reflexivity. Qed.

(** The same for every chunk: after a line with [opt.], whatever follows
    in the chunk has no effect. *)
Lemma ok_opt_line_returns
    (inspect : env_value → string) (env : gmap string string)
    (data : string) (pre post : list string) (line env_var : string) :
  JsString.split "010" data = pre ++ line :: post →
  Forall (passes inspect env) pre →
  Pattern.exec line = Some (Some "opt.", env_var) →
  check_line inspect env line = ([], Return)
  ∧ on_stdout inspect env data = ([], Running).
Proof.
  intros Hsplit Hpre Hexec.
  assert (Hline : check_line inspect env line = ([], Return)).
  { by rewrite (check_line_match _ _ _ _ _ Hexec). }
  split; [done|].
  by rewrite (on_stdout_stop _ _ _ _ _ _ _ _ Hsplit Hpre Hline).
Qed.

(** C5.  A non-empty line on which the extraction pattern fails prints one
    diagnostic, made of a fixed text and the first 100 characters of the
    line (the whole line when it is shorter); the callback returns, so the
    lines after it in the chunk are not processed; the process keeps
    running and the later events are handled as usual.  This holds for
    every non-empty line without a match, inside or outside the output of
    the search. *)
Theorem ok_unparsed_line_logged
    (inspect : env_value → string) (env : gmap string string)
    (data : string) (pre post : list string) (line : string)
    (later : list event) :
  JsString.split "010" data = pre ++ line :: post →
  Forall (passes inspect env) pre →
  line ≠ EmptyString →
  Pattern.exec line = None →
  ∃ shown rest,
    line = shown +:+ rest
    ∧ String.length shown = Nat.min 100 (String.length line)
    ∧ on_stdout inspect env data
      = (["Could not parse ENV grep result: " +:+ shown], Running)
    ∧ ok inspect env (Stdout data :: later)
      = (("Could not parse ENV grep result: " +:+ shown)
           :: (ok inspect env later).1,
         (ok inspect env later).2).
Proof.
  intros Hsplit Hpre Hne Hexec.
  destruct (substr0_prefix 100 line) as (rest & Hshown & Hlen).
  exists (JsString.substr0 100 line), rest.
  assert (Hline : check_line inspect env line
                  = ([parse_diagnostic line], Return)).
  { unfold check_line. destruct line; [done|]. by rewrite Hexec. }
  assert (Hdata : on_stdout inspect env data
                  = ([parse_diagnostic line], Running)).
  { by rewrite (on_stdout_stop _ _ _ _ _ _ _ _ Hsplit Hpre Hline). }
  split; [done|]. split; [done|]. split; [done|].
  simpl. rewrite Hdata. by destruct (ok inspect env later).
Qed.

Lemma ok_unparsed_line_logged_witness :
  ∃ shown rest,
    "Binary file src/a.js matches" = shown +:+ rest
    ∧ String.length shown = Nat.min 100 28
    ∧ on_stdout inspect_plain ∅
        (chunk ["Binary file src/a.js matches"; "a.ts:ENV.FOO"])
      = (["Could not parse ENV grep result: " +:+ shown], Running)
    ∧ ok inspect_plain ∅
        [Stdout (chunk ["Binary file src/a.js matches"; "a.ts:ENV.FOO"]);
         Stderr "grep: x: Permission denied"]
      = (("Could not parse ENV grep result: " +:+ shown)
           :: (ok inspect_plain ∅ [Stderr "grep: x: Permission denied"]).1,
         (ok inspect_plain ∅ [Stderr "grep: x: Permission denied"]).2).
Proof.
  apply (ok_unparsed_line_logged inspect_plain ∅
           (chunk ["Binary file src/a.js matches"; "a.ts:ENV.FOO"])
           [] ["a.ts:ENV.FOO"; ""] "Binary file src/a.js matches"
           [Stderr "grep: x: Permission denied"]).
  - reflexivity.
  - constructor.
  - discriminate.
  - reflexivity.
Defined.

(** C10.  The pattern is applied once to a line and gives its leftmost
    match: the line is [pre +:+ s] with a match at the start of [s] and none
    at any position inside [pre].  What the loop does with the line depends
    on the environment only through the variable of that match: two
    environments that agree on it give the same printed lines and the same
    completion, whatever the other variables named later on the line are
    set to. *)
Theorem ok_checks_first_usage_only
    (inspect : env_value → string) (env : gmap string string)
    (line : string) (modifier : option string) (env_var : string) :
  Pattern.exec line = Some (modifier, env_var) →
  (∃ pre s, line = pre +:+ s
            ∧ Pattern.match_here s = Some (modifier, env_var)
            ∧ ∀ p q, pre = p +:+ q → q ≠ EmptyString →
                     Pattern.match_here (q +:+ s) = None)
  ∧ ∀ env' : gmap string string,
      env' !! env_var = env !! env_var →
      check_line inspect env' line = check_line inspect env line.
Proof.
  intros Hexec. split; [by apply exec_leftmost|].
  intros env' Henv.
  rewrite !(check_line_match _ _ _ _ _ Hexec).
  unfold env_lookup. by rewrite Henv.
Qed.

Lemma ok_checks_first_usage_only_witness :
  check_line inspect_plain (<["FOO" := "1"]> ∅) "a.ts:f(ENV.FOO, ENV.BAR)"
  = check_line inspect_plain (<["FOO" := "1"]> (<["BAR" := "2"]> ∅))
      "a.ts:f(ENV.FOO, ENV.BAR)"
  ∧ check_line inspect_plain (<["FOO" := "1"]> ∅) "a.ts:f(ENV.FOO, ENV.BAR)"
    = ([], Next).
Proof.
  split; [|reflexivity].
  apply (ok_checks_first_usage_only inspect_plain
           (<["FOO" := "1"]> (<["BAR" := "2"]> ∅))
           "a.ts:f(ENV.FOO, ENV.BAR)" None "FOO").
  - reflexivity.
  - reflexivity.
Defined.

(** ** The accessor *)

Lemma reserved_spec (name : string) :
  ENV.reserved name = true ↔ name = "num" ∨ name = "opt" ∨ name = "ok".
Proof.
  unfold ENV.reserved. simpl. rewrite !orb_true_iff, !String.eqb_eq.
  intuition discriminate.
Qed.

Lemma get_not_reserved (env : gmap string string) (name : string) :
  ENV.reserved name = false →
  ENV.get env name =
    match env_lookup env name with
    | Unset => Throw (MissingRequiredVariable name)
    | v => Ok (of_env_value v)
    end.
Proof. intros H. unfold ENV.get. by rewrite H. Qed.

Lemma env_lookup_set (env : gmap string string) (name v : string) :
  env !! name = Some v → env_lookup env name = Own v.
Proof. unfold env_lookup. by intros ->. Qed.

Lemma env_lookup_unset (env : gmap string string) (name : string) :
  env !! name = None → inherited name = false → env_lookup env name = Unset.
Proof. unfold env_lookup. by intros -> ->. Qed.

Lemma env_lookup_inherited (env : gmap string string) (name : string) :
  env !! name = None → inherited name = true →
  env_lookup env name = Inherited name.
Proof. unfold env_lookup. by intros -> ->. Qed.

Lemma target_get_reserved (name : string) :
  ENV.reserved name = true → ENV.target_get name ≠ Undefined.
Proof. intros [-> | [-> | ->]]%reserved_spec; discriminate. Qed.

(** C2, the claim as stated fails in three places.  With [PORT=abc] the
    numeric lookup returns [NaN]; it does not throw.  With [toString]
    absent from the environment it does not throw either: it parses the
    function [process.env] inherits and returns [NaN].  And the integer
    in front of [9007199254740993] is returned as 9007199254740992, the
    nearest double. *)
Lemma num_get_no_integer_returns_NaN :
  ENV.num.get (<["PORT" := "abc"]> ∅) "PORT" = Ok (Num NaN)
  ∧ (¬ ∃ e, ENV.num.get (<["PORT" := "abc"]> ∅) "PORT" = Throw e)
  ∧ (∅ : gmap string string) !! "toString" = None
  ∧ ENV.num.get ∅ "toString" = Ok (Num NaN)
  ∧ ENV.num.get (<["PORT" := "9007199254740993"]> ∅) "PORT"
    = Ok (Num (Int 9007199254740992)).
Proof.
  split; [reflexivity|]. split; [|by vm_compute].
  intros [e He]. discriminate He.
Qed.

(** C2, amended.  The numeric lookup throws the missing-variable error
    when the name is undefined in the environment and is not a property
    name of [Object.prototype]; for such a name it returns [NaN].  When
    the name has a value it returns [parseInt] of the value and never
    throws: for a value that starts with a decimal numeral (42 in [42]
    and in [42abc]) the number the numeral denotes, whatever follows it,
    when that number is at most 2^53, and the double nearest to it beyond;
    for a value with no integer in front (such as [abc]) the number
    [NaN]. *)
Theorem num_get_spec (env : gmap string string) (name : string) :
  (env !! name = None → inherited name = false →
   ENV.num.get env name = Throw (MissingRequiredVariable name))
  ∧ (env !! name = None → inherited name = true →
     ENV.num.get env name = Ok (Num NaN))
  ∧ (∀ v, env !! name = Some v →
          ENV.num.get env name = Ok (Num (ParseInt.parseInt v)))
  ∧ (∀ d rest,
       d ≠ Decimal.Nil →
       ParseInt.radix_digits 10 rest = [] →
       (d = Decimal.D0 Decimal.Nil →
        ∀ r, rest ≠ String "x" r ∧ rest ≠ String "X" r) →
       env !! name = Some (NilEmpty.string_of_uint d +:+ rest) →
       ENV.num.get env name
       = Ok (Num (ParseInt.to_Number 1 (Z.of_N (N.of_uint d))))
       ∧ (Z.of_N (N.of_uint d) <= 2 ^ 53 →
          ENV.num.get env name = Ok (Num (Int (Z.of_N (N.of_uint d))))))
  ∧ (∀ v, env !! name = Some v → ParseInt.parseInt v = NaN →
          ENV.num.get env name = Ok (Num NaN)).
Proof.
  unfold ENV.num.get. split; [|split; [|split; [|split]]].
  - intros Hv Hin. by rewrite (env_lookup_unset _ _ Hv Hin).
  - intros Hv Hin. by rewrite (env_lookup_inherited _ _ Hv Hin).
  - intros v Hv. by rewrite (env_lookup_set _ _ _ Hv).
  - intros d rest Hd Hrest Hhex Hv.
    rewrite (env_lookup_set _ _ _ Hv). simpl.
    rewrite parseInt_numeral by done. split; [done|].
    intros Hle. rewrite to_Number_exact; [done | lia].
  - intros v Hv Hnan. rewrite (env_lookup_set _ _ _ Hv). simpl.
    by rewrite Hnan.
Qed.

Lemma num_get_spec_witness :
  ENV.num.get (<["PORT" := "42abc"]> ∅) "HOST"
  = Throw (Error "Environment variable HOST is undefined.")
  ∧ ENV.num.get (<["PORT" := "42abc"]> ∅) "valueOf" = Ok (Num NaN)
  ∧ ENV.num.get (<["PORT" := "42abc"]> ∅) "PORT" = Ok (Num (Int 42))
  ∧ ENV.num.get (<["PORT" := "42"]> ∅) "PORT" = Ok (Num (Int 42))
  ∧ ENV.num.get (<["PORT" := "abc"]> ∅) "PORT" = Ok (Num NaN).
Proof.
  pose proof (num_get_spec (<["PORT" := "42abc"]> ∅) "HOST")
    as (Hhost & _).
  pose proof (num_get_spec (<["PORT" := "42abc"]> ∅) "valueOf")
    as (_ & Hproto & _).
  pose proof (num_get_spec (<["PORT" := "42abc"]> ∅) "PORT")
    as (_ & _ & _ & Hnum & _).
  pose proof (num_get_spec (<["PORT" := "42"]> ∅) "PORT")
    as (_ & _ & _ & Hnum' & _).
  pose proof (num_get_spec (<["PORT" := "abc"]> ∅) "PORT")
    as (_ & _ & _ & _ & Hnan).
  split; [|split; [|split; [|split]]].
  - apply Hhost; reflexivity.
  - apply Hproto; reflexivity.
  - apply (Hnum (Decimal.D4 (Decimal.D2 Decimal.Nil)) "abc");
      [discriminate | reflexivity | discriminate | reflexivity | by vm_compute].
  - apply (Hnum' (Decimal.D4 (Decimal.D2 Decimal.Nil)) "");
      [discriminate | reflexivity | discriminate | reflexivity | by vm_compute].
  - apply (Hnan "abc"); reflexivity.
Defined.

(** C3, the claim as stated fails: a variable set to the empty string is
    returned, empty, by the direct lookup; a value with no integer in it
    comes back from the numeric lookup as [NaN]; and with [toString]
    absent from the environment neither lookup aborts: the direct one
    returns the function [process.env] inherits, the numeric one
    [NaN]. *)
Lemma required_paths_return_empty_and_NaN :
  ENV.get (<["HOST" := ""]> ∅) "HOST" = Ok (Str "")
  ∧ ENV.num.get (<["PORT" := "abc"]> ∅) "PORT" = Ok (Num NaN)
  ∧ (∅ : gmap string string) !! "toString" = None
  ∧ ENV.get ∅ "toString" = Ok (Prototype "toString")
  ∧ ENV.num.get ∅ "toString" = Ok (Num NaN).
Proof. repeat split. Qed.

(** C3, amended.  Through the direct lookup and through the numeric
    lookup a result is never [undefined].  A variable that is undefined
    in the environment always throws, unless its name is a property name
    of [Object.prototype] or, on the direct path, one of [num], [opt] and
    [ok].  A result that is returned for a variable of the environment is
    the string it holds (which may be empty) on the direct path and
    [parseInt] of that string (which may be [NaN]) on the numeric path. *)
Theorem required_paths_never_undefined
    (env : gmap string string) (name : string) :
  (∀ r, ENV.get env name = Ok r → r ≠ Undefined)
  ∧ (∀ r, ENV.num.get env name = Ok r → r ≠ Undefined ∧ ∃ n, r = Num n)
  ∧ (env !! name = None → inherited name = false →
     (ENV.reserved name = false →
      ENV.get env name = Throw (MissingRequiredVariable name))
     ∧ ENV.num.get env name = Throw (MissingRequiredVariable name))
  ∧ (∀ v, env !! name = Some v →
          (ENV.reserved name = false → ENV.get env name = Ok (Str v))
          ∧ ENV.num.get env name = Ok (Num (ParseInt.parseInt v))).
Proof.
  split; [|split; [|split]].
  - unfold ENV.get. destruct (ENV.reserved name) eqn:Hres.
    + intros r [= <-]. by apply target_get_reserved.
    + destruct (env_lookup env name); intros r; [done | ..];
        by intros [= <-].
  - unfold ENV.num.get. destruct (env_lookup env name); intros r; [done | ..];
      intros [= <-]; (split; [done | by eexists]).
  - intros Hv Hin. split.
    + intros Hres.
      by rewrite (get_not_reserved _ _ Hres), (env_lookup_unset _ _ Hv Hin).
    + unfold ENV.num.get. by rewrite (env_lookup_unset _ _ Hv Hin).
  - intros v Hv. split.
    + intros Hres.
      by rewrite (get_not_reserved _ _ Hres), (env_lookup_set _ _ _ Hv).
    + unfold ENV.num.get. by rewrite (env_lookup_set _ _ _ Hv).
Qed.

Lemma required_paths_never_undefined_witness :
  ENV.get (<["HOST" := "db"]> ∅) "PORT"
  = Throw (Error "Environment variable PORT is undefined.")
  ∧ ENV.num.get (<["HOST" := "db"]> ∅) "PORT"
    = Throw (Error "Environment variable PORT is undefined.")
  ∧ Str "db" ≠ Undefined
  ∧ ENV.get (<["HOST" := "db"]> ∅) "HOST" = Ok (Str "db").
Proof.
  pose proof (required_paths_never_undefined (<["HOST" := "db"]> ∅) "PORT")
    as (_ & _ & Hport & _).
  pose proof (required_paths_never_undefined (<["HOST" := "db"]> ∅) "HOST")
    as (Hhost & _ & _ & Hset).
  destruct (Hport eq_refl eq_refl) as [Hget Hnum].
  split; [|split; [|split]].
  - by apply Hget.
  - exact Hnum.
  - by apply Hhost.
  - by apply (Hset "db").
Defined.

(** C6, the claim as stated fails on the reserved names and on the names
    [process.env] inherits: with [num=5] in the environment the direct
    lookup of [num] returns the numeric view, not the string; with [ok]
    undefined the direct lookup of [ok] returns the validator and does
    not throw; and with [toString] undefined the direct lookup of
    [toString] returns the inherited function and does not throw. *)
Lemma get_reserved_name_not_read :
  (<["num" := "5"]> ∅ : gmap string string) !! "num" = Some "5"
  ∧ ENV.get (<["num" := "5"]> ∅) "num" ≠ Ok (Str "5")
  ∧ (∅ : gmap string string) !! "ok" = None
  ∧ ENV.get ∅ "ok" ≠ Throw (MissingRequiredVariable "ok")
  ∧ (∅ : gmap string string) !! "toString" = None
  ∧ ENV.get ∅ "toString" ≠ Throw (MissingRequiredVariable "toString").
Proof. repeat split; try reflexivity; discriminate. Qed.

(** C6, amended.  For every name other than [num], [opt] and [ok]: when
    the environment has a non-empty string for the name the direct lookup
    returns exactly that string, and when the name is undefined in the
    environment and is not a property name of [Object.prototype] the
    direct lookup throws the missing-variable error. *)
Theorem get_spec (env : gmap string string) (name : string) :
  name ≠ "num" → name ≠ "opt" → name ≠ "ok" →
  (∀ v, env !! name = Some v → v ≠ EmptyString →
        ENV.get env name = Ok (Str v))
  ∧ (env !! name = None → inherited name = false →
     ENV.get env name = Throw (MissingRequiredVariable name)).
Proof.
  intros Hnum Hopt Hok.
  assert (Hres : ENV.reserved name = false).
  { apply not_true_is_false. rewrite reserved_spec. tauto. }
  rewrite (get_not_reserved _ _ Hres). split.
  - intros v Hv _. by rewrite (env_lookup_set _ _ _ Hv).
  - intros Hv Hin. by rewrite (env_lookup_unset _ _ Hv Hin).
Qed.

Lemma get_spec_witness :
  ENV.get (<["HOST" := "db"]> ∅) "HOST" = Ok (Str "db")
  ∧ ENV.get (<["HOST" := "db"]> ∅) "PORT"
    = Throw (Error "Environment variable PORT is undefined.").
Proof.
  split.
  - apply (get_spec (<["HOST" := "db"]> ∅) "HOST");
      [discriminate | discriminate | discriminate | reflexivity | discriminate].
  - apply (get_spec (<["HOST" := "db"]> ∅) "PORT");
      [discriminate | discriminate | discriminate | reflexivity | reflexivity].
Defined.

(** C7, the claim as stated fails on the names [process.env] inherits:
    with [toString] unset the optional lookup does not return
    [undefined]; it returns the inherited function. *)
Lemma opt_get_inherited_name_not_undefined :
  (∅ : gmap string string) !! "toString" = None
  ∧ ENV.opt.get ∅ "toString" = Ok (Prototype "toString")
  ∧ ENV.opt.get ∅ "toString" ≠ Ok Undefined.
Proof. repeat split. discriminate. Qed.

(** C7, amended.  The optional lookup never throws.  It returns the string
    the environment holds for the name; when the name is unset it returns
    [undefined] -- a value distinct from every string, the empty one
    included -- unless the name is a property name of [Object.prototype],
    for which it returns the inherited property. *)
Theorem opt_get_never_fails (env : gmap string string) (name : string) :
  (∀ e, ENV.opt.get env name ≠ Throw e)
  ∧ (∀ v, env !! name = Some v → ENV.opt.get env name = Ok (Str v))
  ∧ (env !! name = None → inherited name = false →
     ENV.opt.get env name = Ok Undefined)
  ∧ (env !! name = None → inherited name = true →
     ENV.opt.get env name = Ok (Prototype name))
  ∧ ∀ s, Undefined ≠ Str s.
Proof.
  unfold ENV.opt.get, process_env. repeat split.
  - discriminate.
  - intros v Hv. by rewrite (env_lookup_set _ _ _ Hv).
  - intros Hv Hin. by rewrite (env_lookup_unset _ _ Hv Hin).
  - intros Hv Hin. by rewrite (env_lookup_inherited _ _ Hv Hin).
  - discriminate.
Qed.

Lemma opt_get_never_fails_witness :
  ENV.opt.get (<["HOST" := "db"]> ∅) "HOST" = Ok (Str "db")
  ∧ ENV.opt.get (<["HOST" := "db"]> ∅) "BAZ" = Ok Undefined
  ∧ ENV.opt.get (<["HOST" := "db"]> ∅) "valueOf" = Ok (Prototype "valueOf").
Proof.
  pose proof (opt_get_never_fails (<["HOST" := "db"]> ∅) "HOST")
    as (_ & Hset & _).
  pose proof (opt_get_never_fails (<["HOST" := "db"]> ∅) "BAZ")
    as (_ & _ & Hunset & _).
  pose proof (opt_get_never_fails (<["HOST" := "db"]> ∅) "valueOf")
    as (_ & _ & _ & Hproto & _).
  split; [|split].
  - by apply Hset.
  - by apply Hunset.
  - by apply Hproto.
Defined.

(** C8.  An assignment through the accessor, through its optional view or
    through its numeric view throws the read-only error and leaves the
    environment as it was: every lookup, through any of the three, gives
    after the attempt what it gave before. *)
Theorem assign_fails_env_unchanged
    (w : view) (env : gmap string string) (name : string) (value : js_value) :
  (assign_through w env name value).1 = Throw ImmutableAccessError
  ∧ (assign_through w env name value).2 = env
  ∧ ∀ (w' : view) (name' : string),
      lookup_through w' (assign_through w env name value).2 name'
      = lookup_through w' env name'.
Proof. by destruct w. Qed.

(** C9.  The direct lookup of [opt], [num] or [ok] gives the optional view,
    the numeric view or the validator in every environment: it never
    throws and never gives the string the environment may hold under that
    name. *)
Theorem get_reserved_names (env : gmap string string) (name : string) :
  name = "opt" ∨ name = "num" ∨ name = "ok" →
  ENV.get env name = Ok (ENV.target_get name)
  ∧ (∀ env' : gmap string string, ENV.get env' name = ENV.get env name)
  ∧ (∀ e, ENV.get env name ≠ Throw e)
  ∧ (∀ v, ENV.get env name ≠ Ok (Str v))
  ∧ ENV.target_get "opt" = OptView
  ∧ ENV.target_get "num" = NumView
  ∧ ENV.target_get "ok" = OkFunction.
Proof.
  intros [-> | [-> | ->]]; repeat split; discriminate.
Qed.

Lemma get_reserved_names_witness :
  ENV.get (<["num" := "5"]> ∅) "num" = Ok NumView
  ∧ ENV.get (<["opt" := "x"]> ∅) "opt" = Ok OptView
  ∧ ENV.get (<["ok" := "yes"]> ∅) "ok" = Ok OkFunction.
Proof.
  split; [|split].
  - apply (get_reserved_names (<["num" := "5"]> ∅) "num"). auto.
  - apply (get_reserved_names (<["opt" := "x"]> ∅) "opt"). auto.
  - apply (get_reserved_names (<["ok" := "yes"]> ∅) "ok"). auto.
Defined.

(** * Further properties *)

(** ** The extraction pattern, in both directions *)

Lemma strip_prefix_spec (p s r : string) :
  JsString.strip_prefix p s = Some r ↔ s = p +:+ r.
Proof.
  revert s. induction p as [|a p IH]; intros s.
  - rewrite append_nil. destruct s; simpl; split; congruence.
  - rewrite append_cons. destruct s as [|b s]; simpl; [split; congruence|].
    destruct (Ascii.eqb_spec a b) as [->|Hne].
    + rewrite IH. split; congruence.
    + split; congruence.
Qed.

Lemma word_spec (s : string) :
  ∃ post, s = Pattern.word s +:+ post
          ∧ all_word (Pattern.word s) = true
          ∧ starts_word post = false.
Proof.
  induction s as [|c s IH].
  - by exists EmptyString.
  - simpl. destruct (Pattern.is_word c) eqn:Hc.
    + destruct IH as (post & Hs & Hall & Hpost). exists post.
      rewrite append_cons, <- Hs. unfold all_word in *. simpl.
      by rewrite Hc, Hall.
    + exists (String c s). simpl. by rewrite Hc.
Qed.

Lemma word_app (w rest : string) :
  all_word w = true → starts_word rest = false →
  Pattern.word (w +:+ rest) = w.
Proof.
  unfold all_word. induction w as [|c w IH]; intros Hw Hrest.
  - rewrite append_nil. destruct rest as [|c rest]; [done|].
    simpl in *. by rewrite Hrest.
  - rewrite append_cons. simpl in *.
    apply andb_true_iff in Hw as [-> Hw]. by rewrite IH.
Qed.

Lemma word_empty_iff (s : string) :
  Pattern.word s = EmptyString ↔ starts_word s = false.
Proof.
  destruct s as [|c s]; simpl; [done|].
  by destruct (Pattern.is_word c).
Qed.

Lemma with_modifier_spec (m r : string) (x : option string * string) :
  Pattern.with_modifier m r = Some x →
  ∃ r', r = m +:+ r' ∧ x = (Some m, Pattern.word r')
        ∧ Pattern.word r' ≠ EmptyString.
Proof.
  unfold Pattern.with_modifier.
  destruct (JsString.strip_prefix m r) as [r'|] eqn:Hr; [|done].
  apply strip_prefix_spec in Hr.
  destruct (Pattern.word r') eqn:Hw; [done|].
  intros [= <-]. exists r'. by rewrite Hw.
Qed.

(** The text of a match that starts at the first character. *)
Lemma match_here_text (s : string) (modifier : option string) (env_var : string) :
  Pattern.match_here s = Some (modifier, env_var) →
  ∃ post, s = "ENV." +:+ modifier_text modifier +:+ env_var +:+ post
          ∧ env_var ≠ EmptyString
          ∧ all_word env_var = true
          ∧ starts_word post = false.
Proof.
  unfold Pattern.match_here.
  destruct (JsString.strip_prefix "ENV." s) as [r|] eqn:Hr; [|done].
  apply strip_prefix_spec in Hr. subst s.
  assert (Hmod : ∀ m x, Pattern.with_modifier m r = Some x →
            x = (modifier, env_var) →
            ∃ post, "ENV." +:+ r
                    = "ENV." +:+ modifier_text modifier +:+ env_var +:+ post
                    ∧ env_var ≠ EmptyString ∧ all_word env_var = true
                    ∧ starts_word post = false).
  { intros m x Hx ->.
    destruct (with_modifier_spec _ _ _ Hx) as (r' & -> & [= -> ->] & Hne).
    destruct (word_spec r') as (post & Hr' & Hall & Hpost).
    exists post. simpl modifier_text. by rewrite <- Hr'. }
  destruct (Pattern.with_modifier "opt." r) as [x|] eqn:Hopt.
  { intros [= ->]. by eapply Hmod. }
  destruct (Pattern.with_modifier "num." r) as [x|] eqn:Hnum.
  { intros [= ->]. by eapply Hmod. }
  destruct (Pattern.word r) eqn:Hw; [done|]. rewrite <- Hw.
  intros [= <- <-].
  destruct (word_spec r) as (post & Hr' & Hall & Hpost).
  exists post. simpl modifier_text. rewrite append_nil, <- Hr'.
  split; [done|]. split; [by rewrite Hw|]. done.
Qed.

(** X1.  What the pattern extracts from a line is text of the line: the
    line is [pre], then [ENV.], then the modifier ([opt.], [num.] or
    nothing), then the variable name, then [post].  The name is not empty,
    is made of letters, digits and underscores only, and is not cut short:
    [post] does not go on with such a character. *)
Theorem exec_extracts_text
    (line : string) (modifier : option string) (env_var : string) :
  Pattern.exec line = Some (modifier, env_var) →
  (modifier = None ∨ modifier = Some "opt." ∨ modifier = Some "num.")
  ∧ env_var ≠ EmptyString
  ∧ all_word env_var = true
  ∧ ∃ pre post,
      line = pre +:+ "ENV." +:+ modifier_text modifier +:+ env_var +:+ post
      ∧ starts_word post = false.
Proof.
  intros Hexec.
  destruct (exec_leftmost _ _ Hexec) as (pre & s & -> & Hs & _).
  destruct (match_here_modifier _ _ _ Hs) as [Hmod _].
  destruct (match_here_text _ _ _ Hs) as (post & -> & Hne & Hall & Hpost).
  split; [done|]. split; [done|]. split; [done|]. by exists pre, post.
Qed.

Lemma exec_extracts_text_witness :
  all_word "DB_HOST_1" = true
  ∧ ∃ pre post,
      "src/a.ts:  connect(ENV.DB_HOST_1, ENV.num.PORT)"
      = pre +:+ "ENV." +:+ modifier_text None +:+ "DB_HOST_1" +:+ post
      ∧ starts_word post = false.
Proof.
  destruct (exec_extracts_text
              "src/a.ts:  connect(ENV.DB_HOST_1, ENV.num.PORT)"
              None "DB_HOST_1") as (_ & _ & Hall & Htext).
  - reflexivity.
  - split; [exact Hall | exact Htext].
Defined.

Lemma append_assoc3 (a b c : string) : (a +:+ b) +:+ c = a +:+ b +:+ c.
Proof.
  induction a as [|x a IH]; [done|].
  by rewrite !append_cons, IH.
Qed.

Lemma no_match_before_spec (pre s : string) :
  no_match_before pre s = true ↔
  ∀ p q, pre = p +:+ q → q ≠ EmptyString →
         Pattern.match_here (q +:+ s) = None.
Proof.
  induction pre as [|c pre IH]; simpl.
  - split; [|done]. intros _ p q Hpq Hq. destruct p.
    + rewrite append_nil in Hpq. by subst q.
    + by rewrite append_cons in Hpq.
  - destruct (Pattern.match_here (String c pre +:+ s)) eqn:Hhere.
    + split; [done|]. intros H.
      by rewrite (H EmptyString (String c pre)) in Hhere.
    + rewrite IH. split.
      * intros H p q Hpq Hq. destruct p as [|c' p].
        -- rewrite append_nil in Hpq. by subst q.
        -- rewrite append_cons in Hpq. injection Hpq as -> ->.
           by apply (H p q).
      * intros H p q -> Hq. by apply (H (String c p) q).
Qed.

(** [exec] gives the match of the first position that has one. *)
Lemma exec_first (pre s : string) (m : option string * string) :
  no_match_before pre s = true →
  Pattern.match_here s = Some m →
  Pattern.exec (pre +:+ s) = Some m.
Proof.
  intros Hpre Hs. induction pre as [|c pre IH].
  - by apply exec_here.
  - simpl in Hpre.
    destruct (Pattern.match_here (String c pre +:+ s)) eqn:Hhere; [done|].
    rewrite append_cons, exec_skip; [by apply IH|].
    by rewrite <- append_cons.
Qed.

Lemma strip_prefix_app (p r : string) :
  JsString.strip_prefix p (p +:+ r) = Some r.
Proof. by apply strip_prefix_spec. Qed.

(** A name other than [opt] and [num] is not taken for a modifier. *)
Lemma with_modifier_name (m w rest : string) :
  m = "opt." ∨ m = "num." →
  all_word w = true → starts_word rest = false →
  w ≠ "opt" → w ≠ "num" →
  Pattern.with_modifier m (w +:+ rest) = None.
Proof.
  intros Hm Hw Hrest Hopt Hnum. unfold Pattern.with_modifier.
  destruct (JsString.strip_prefix m (w +:+ rest)) as [r'|] eqn:Hr; [|done].
  apply strip_prefix_spec in Hr.
  apply (f_equal Pattern.word) in Hr. rewrite (word_app _ _ Hw Hrest) in Hr.
  destruct Hm as [-> | ->]; by subst w.
Qed.

Lemma match_here_usage (modifier : option string) (w rest : string) :
  modifier = None ∨ modifier = Some "opt." ∨ modifier = Some "num." →
  (modifier = None → w ≠ "opt" ∧ w ≠ "num") →
  w ≠ EmptyString → all_word w = true → starts_word rest = false →
  Pattern.match_here ("ENV." +:+ modifier_text modifier +:+ w +:+ rest)
  = Some (modifier, w).
Proof.
  intros Hmod Hname Hne Hw Hrest. unfold Pattern.match_here.
  rewrite strip_prefix_app.
  assert (Hword : Pattern.word (w +:+ rest) = w) by by apply word_app.
  destruct Hmod as [-> | [-> | ->]]; simpl modifier_text.
  - destruct (Hname eq_refl) as [Hopt Hnum]. rewrite append_nil.
    rewrite !with_modifier_name, Hword by auto. by destruct w.
  - unfold Pattern.with_modifier at 1.
    rewrite strip_prefix_app, Hword. by destruct w.
  - change (Pattern.with_modifier "opt." ("num." +:+ w +:+ rest)) with
      (@None (option string * string)).
    unfold Pattern.with_modifier.
    rewrite strip_prefix_app, Hword. by destruct w.
Qed.

(** X2.  The other direction: a usage written [ENV.NAME], [ENV.opt.NAME] or
    [ENV.num.NAME], with [NAME] made of letters, digits and underscores and
    followed by a character of another kind or by the end of the line, is
    what the pattern extracts, with that modifier and the whole name, when
    no match starts before it on the line.  ([ENV.opt] and [ENV.num] with
    no further name are left aside: the name of a usage without modifier
    is taken to differ from [opt] and [num].) *)
Theorem exec_finds_usage
    (pre rest w : string) (modifier : option string) :
  modifier = None ∨ modifier = Some "opt." ∨ modifier = Some "num." →
  (modifier = None → w ≠ "opt" ∧ w ≠ "num") →
  w ≠ EmptyString → all_word w = true → starts_word rest = false →
  no_match_before pre
    ("ENV." +:+ modifier_text modifier +:+ w +:+ rest) = true →
  Pattern.exec (pre +:+ "ENV." +:+ modifier_text modifier +:+ w +:+ rest)
  = Some (modifier, w).
Proof.
  intros Hmod Hname Hne Hw Hrest Hpre.
  apply exec_first; [done|]. by apply match_here_usage.
Qed.

Lemma exec_finds_usage_witness :
  Pattern.exec ("src/a.ts:  listen(" +:+ "ENV." +:+ modifier_text (Some "num.")
                  +:+ "PORT" +:+ ", ENV.HOST)")
  = Some (Some "num.", "PORT").
Proof.
  apply (exec_finds_usage "src/a.ts:  listen(" ", ENV.HOST)" "PORT"
           (Some "num."));
    [by right; right | discriminate | discriminate | reflexivity
    | reflexivity | reflexivity].
Defined.

(** X3.  The validator and the accessor on the name [ok].  A line whose
    first usage is [ENV.ok] followed by a character that is not a letter,
    a digit or an underscore -- the call [ENV.ok ()] that starts the
    validator is one -- is checked as a required variable named [ok]: the
    process exits with status 1 when the environment has no non-empty
    [ok] (the value read is that of the variable: [ok] is not a name
    [process.env] inherits), although the accessor never reads that
    variable and gives the validator for [ENV.ok] in every environment. *)
Theorem ok_requires_variable_named_ok
    (inspect : env_value → string) (env : gmap string string)
    (pre rest : string) :
  starts_word rest = false →
  no_match_before pre ("ENV.ok" +:+ rest) = true →
  check_line inspect env (pre +:+ "ENV.ok" +:+ rest)
  = (if falsy (env_lookup env "ok")
     then ([str_diagnostic inspect "ok" (env_lookup env "ok")], Exit 1)
     else ([], Next))
  ∧ env_lookup env "ok"
    = match env !! "ok" with
      | Some v => Own v
      | None => Unset
      end
  ∧ ENV.get env "ok" = Ok OkFunction.
Proof.
  intros Hrest Hpre. split; [|done].
  apply (check_line_match inspect env _ None "ok").
  apply exec_first; [done|].
  by apply (match_here_usage None "ok" rest);
    [left | intros _; split; discriminate | discriminate | | ].
Qed.

Lemma ok_requires_variable_named_ok_witness :
  check_line inspect_plain (<["HOST" := "db"]> ∅)
    ("src/main.ts:" +:+ "ENV.ok" +:+ "()")
  = (["ENV found required field ok, but given value undefined is incompatible."],
     Exit 1)
  ∧ ENV.get (<["HOST" := "db"]> ∅) "ok" = Ok OkFunction.
Proof.
  destruct (ok_requires_variable_named_ok inspect_plain
              (<["HOST" := "db"]> ∅) "src/main.ts:" "()")
    as (Hline & _ & Hget); [reflexivity | reflexivity |].
  split; [exact Hline | exact Hget].
Defined.

(** ** The search and the extraction pattern *)

Lemma usage_here_match (s : string) :
  Grep.usage_here s = true → ∃ m, Pattern.match_here s = Some m.
Proof.
  unfold Grep.usage_here, Pattern.match_here, Pattern.with_modifier.
  destruct (JsString.strip_prefix "ENV." s) as [r|]; [|done].
  destruct (JsString.strip_prefix "opt." r) as [r1|].
  - destruct (Pattern.word r1) eqn:H1; [|by eexists].
    apply word_empty_iff in H1. rewrite H1, orb_false_r.
    destruct (JsString.strip_prefix "num." r) as [r2|].
    + destruct (Pattern.word r2) eqn:H2; [|by eexists].
      apply word_empty_iff in H2. rewrite H2, orb_false_r.
      destruct (Pattern.word r) eqn:H; [|by eexists].
      apply word_empty_iff in H. by rewrite H.
    + rewrite orb_false_r.
      destruct (Pattern.word r) eqn:H; [|by eexists].
      apply word_empty_iff in H. by rewrite H.
  - rewrite orb_false_r.
    destruct (JsString.strip_prefix "num." r) as [r2|].
    + destruct (Pattern.word r2) eqn:H2; [|by eexists].
      apply word_empty_iff in H2. rewrite H2, orb_false_r.
      destruct (Pattern.word r) eqn:H; [|by eexists].
      apply word_empty_iff in H. by rewrite H.
    + rewrite orb_false_r.
      destruct (Pattern.word r) eqn:H; [|by eexists].
      apply word_empty_iff in H. by rewrite H.
Qed.

Lemma usage_after_split (boundary : ascii → bool) (line : string) :
  Grep.usage_after boundary line = true →
  ∃ pre s, line = pre +:+ s ∧ Grep.usage_here s = true.
Proof.
  induction line as [|c line IH]; simpl; [done|].
  intros [[_ Hhere]%andb_true_iff | Hafter]%orb_true_iff.
  - by exists (String c EmptyString), line.
  - destruct (IH Hafter) as (pre & s & -> & Hs).
    by exists (String c pre), s.
Qed.

(** X4.  Every line the search selects is a line the extraction pattern
    parses, with whatever [grep] puts in front of it (the file name and a
    colon): the branch that reports a line it could not parse is never
    taken for a whole line of the search output.  This holds however
    [grep] reads the bracket expression in front of [ENV]. *)
Theorem grep_selected_line_parses
    (boundary : ascii → bool) (file line : string) :
  Grep.selects boundary line = true →
  ∃ modifier env_var,
    Pattern.exec (file +:+ line) = Some (modifier, env_var)
    ∧ ∀ (inspect : env_value → string) (env : gmap string string),
        check_line inspect env (file +:+ line)
        ≠ ([parse_diagnostic (file +:+ line)], Return).
Proof.
  intros Hsel.
  assert (∃ pre s, line = pre +:+ s ∧ Grep.usage_here s = true)
    as (pre & s & -> & Hs).
  { apply orb_true_iff in Hsel as [Hhere | Hafter].
    - by exists EmptyString, line.
    - by apply (usage_after_split boundary). }
  destruct (usage_here_match _ Hs) as [m Hm].
  destruct (exec_complete (file +:+ pre) s m Hm) as [[modifier env_var] Hexec].
  rewrite append_assoc3 in Hexec.
  exists modifier, env_var. split; [done|].
  intros inspect env. rewrite (check_line_match _ _ _ _ _ Hexec).
  repeat case_match; discriminate.
Qed.

Lemma grep_selected_line_parses_witness :
  ∃ modifier env_var,
    Pattern.exec ("src/a.ts:" +:+ "const p = MYENV.A + ENV.num.PORT")
    = Some (modifier, env_var)
    ∧ ∀ (inspect : env_value → string) (env : gmap string string),
        check_line inspect env
          ("src/a.ts:" +:+ "const p = MYENV.A + ENV.num.PORT")
        ≠ ([parse_diagnostic
              ("src/a.ts:" +:+ "const p = MYENV.A + ENV.num.PORT")], Return).
Proof.
  apply (grep_selected_line_parses
           (λ c, negb (Pattern.is_word c)) "src/a.ts:"
           "const p = MYENV.A + ENV.num.PORT").
  reflexivity.
Defined.

(** ** The validator over a stream of events *)

(** A falsy value is read for a variable that is empty or undefined. *)
Lemma falsy_absent (env : gmap string string) (name : string) :
  falsy (env_lookup env name) = true → absent (env !! name).
Proof.
  unfold absent, env_lookup. destruct (env !! name) as [[|c s]|]; simpl; auto.
  discriminate.
Qed.

Lemma num_incompatible_unmet (env : gmap string string) (name : string) :
  num_incompatible (env_lookup env name) = true →
  absent (env !! name)
  ∨ ∃ v, env !! name = Some v ∧ ParseInt.parseInt v = NaN.
Proof.
  intros [Hf | Hnan]%orb_true_iff; [left; by apply falsy_absent|].
  unfold env_lookup in Hnan. destruct (env !! name) as [v|]; [|left; by left].
  right. exists v. split; [done|]. simpl in Hnan.
  by destruct (ParseInt.parseInt v).
Qed.

Lemma split_nonempty (sep : ascii) (s : string) : JsString.split sep s ≠ [].
Proof.
  destruct s as [|c s]; simpl; [done|].
  destruct (Ascii.eqb c sep); [done|]. by destruct (JsString.split sep s).
Qed.

Lemma split_app (sep : ascii) (s t : string) :
  JsString.split sep (s +:+ String sep t)
  = JsString.split sep s ++ JsString.split sep t.
Proof.
  induction s as [|c s IH].
  - rewrite append_nil. simpl. by rewrite Ascii.eqb_refl.
  - rewrite append_cons. simpl. rewrite IH.
    destruct (Ascii.eqb c sep); [done|].
    pose proof (split_nonempty sep s).
    by destruct (JsString.split sep s).
Qed.

Section StreamFacts.

Variable inspect : env_value → string.
Variable env : gmap string string.

Lemma exec_modifier (line : string) (modifier : option string) (env_var : string) :
  Pattern.exec line = Some (modifier, env_var) →
  modifier = None ∨ modifier = Some "opt." ∨ modifier = Some "num.".
Proof.
  intros Hexec. destruct (exec_leftmost _ _ Hexec) as (pre & s & _ & Hs & _).
  by destruct (match_here_modifier _ _ _ Hs).
Qed.

(** The four ways an iteration can end. *)
Lemma check_line_cases (line : string) :
  check_line inspect env line = ([], Return)
  ∨ check_line inspect env line = ([parse_diagnostic line], Return)
  ∨ check_line inspect env line = ([], Next)
  ∨ ∃ modifier env_var,
      Pattern.exec line = Some (modifier, env_var)
      ∧ unmet env modifier env_var
      ∧ check_line inspect env line
        = ([diagnostic inspect env modifier env_var], Exit 1).
Proof.
  destruct (Pattern.exec line) as [[modifier env_var]|] eqn:Hexec.
  - rewrite (check_line_match _ _ _ _ _ Hexec).
    destruct (exec_modifier _ _ _ Hexec) as [-> | [-> | ->]]; simpl.
    + destruct (falsy (env_lookup env env_var)) eqn:Hf; [|auto].
      do 3 right. exists None, env_var. split; [done|]. split; [|done].
      left. split; [done|]. by apply falsy_absent.
    + auto.
    + destruct (num_incompatible (env_lookup env env_var)) eqn:Hn; [|auto].
      do 3 right. exists (Some "num."), env_var. split; [done|].
      split; [|done]. right. split; [done|]. by apply num_incompatible_unmet.
  - unfold check_line. rewrite Hexec. destruct line; auto.
Qed.

Lemma for_lines_cases (lines : list string) :
  for_lines inspect env lines = ([], Next)
  ∨ ∃ line, line ∈ lines
            ∧ for_lines inspect env lines = check_line inspect env line
            ∧ (check_line inspect env line).2 ≠ Next.
Proof.
  induction lines as [|line lines IH]; [by left|].
  simpl. destruct (check_line_cases line) as [H | [H | [H | H]]].
  - right. exists line. rewrite H. split; [left|done].
  - right. exists line. rewrite H. split; [left|done].
  - rewrite H. destruct IH as [-> | (l & Hl & -> & Hne)]; [by left|].
    right. exists l. split; [by right|]. by destruct (check_line inspect env l).
  - destruct H as (modifier & env_var & _ & _ & H).
    right. exists line. rewrite H. split; [left|done].
Qed.

Lemma on_stdout_cases (data : string) :
  on_stdout inspect env data = ([], Running)
  ∨ (∃ line, line ∈ JsString.split "010" data
             ∧ on_stdout inspect env data = ([parse_diagnostic line], Running))
  ∨ ∃ line modifier env_var,
      line ∈ JsString.split "010" data
      ∧ Pattern.exec line = Some (modifier, env_var)
      ∧ unmet env modifier env_var
      ∧ on_stdout inspect env data
        = ([diagnostic inspect env modifier env_var], Exited 1).
Proof.
  unfold on_stdout.
  destruct (for_lines_cases (JsString.split "010" data))
    as [-> | (line & Hin & -> & Hne)]; [by left|].
  destruct (check_line_cases line) as [H | [H | [H | H]]].
  - rewrite H. by left.
  - rewrite H. right. left. by exists line.
  - by rewrite H in Hne.
  - destruct H as (modifier & env_var & Hexec & Hunmet & H).
    rewrite H. right. right. by exists line, modifier, env_var.
Qed.

End StreamFacts.

(** X5.  The validator ends the process for one reason only.  Whatever the
    child delivers, when the process exits the status is 1, some line of
    some chunk of the standard output has a usage, plain or numeric, that
    the environment does not meet, and the diagnostic of that usage is the
    last line printed.  An environment that meets every usage found on
    every line is therefore never refused. *)
Theorem ok_exits_only_on_unmet_usage
    (inspect : env_value → string) (env : gmap string string)
    (events : list event) (out : list string) (code : Z) :
  ok inspect env events = (out, Exited code) →
  code = 1
  ∧ ∃ data line modifier env_var,
      Stdout data ∈ events
      ∧ line ∈ JsString.split "010" data
      ∧ Pattern.exec line = Some (modifier, env_var)
      ∧ unmet env modifier env_var
      ∧ last out = Some (diagnostic inspect env modifier env_var).
Proof.
  revert out. induction events as [|ev later IH]; intros out; [done|].
  simpl. destruct (on_event inspect env ev) as [o s] eqn:Hev.
  destruct s as [|c].
  - destruct (ok inspect env later) as [o' s'] eqn:Hlater.
    intros [= <- ->].
    destruct (IH o' eq_refl)
      as (-> & data & line & modifier & env_var & Hin & Hline & Hexec
          & Hunmet & Hlast).
    split; [done|]. exists data, line, modifier, env_var.
    split; [by right|]. by rewrite last_app, Hlast.
  - intros [= <- <-]. destruct ev as [data|data]; [|done].
    simpl in Hev.
    destruct (on_stdout_cases inspect env data)
      as [H | [(line & _ & H) | (line & modifier & env_var & Hin & Hexec
                                   & Hunmet & H)]];
      rewrite H in Hev; try done.
    injection Hev as <- <-. split; [done|].
    exists data, line, modifier, env_var. split; [left|]. done.
Qed.

Lemma ok_exits_only_on_unmet_usage_witness :
  ∃ data line modifier env_var,
    Stdout data ∈ [Stderr "grep: x: Permission denied";
                   Stdout (chunk ["a.ts:ENV.num.PORT"; "a.ts:ENV.HOST"])]
    ∧ line ∈ JsString.split "010" data
    ∧ Pattern.exec line = Some (modifier, env_var)
    ∧ unmet (<["PORT" := "80"]> ∅) modifier env_var
    ∧ last ["Error while grepping for ENV variables: grep: x: Permission denied";
            "ENV found required field HOST, but given value undefined is incompatible."]
      = Some (diagnostic inspect_plain (<["PORT" := "80"]> ∅) modifier env_var).
Proof.
  apply (ok_exits_only_on_unmet_usage inspect_plain (<["PORT" := "80"]> ∅)
           [Stderr "grep: x: Permission denied";
            Stdout (chunk ["a.ts:ENV.num.PORT"; "a.ts:ENV.HOST"])]
           _ 1).
  reflexivity.
Defined.


(** X7.  Output of the search on its standard error is never fatal.  A
    stream made of such chunks only prints one line for each, the chunk
    after a fixed text, and leaves the process running; and in any stream,
    taking the chunks of the standard error out does not change whether
    the process exits, nor with which status. *)
Theorem ok_stderr_never_fatal
    (inspect : env_value → string) (env : gmap string string)
    (events : list event) (chunks : list string) :
  ok inspect env (Stderr <$> chunks)
  = ((λ data, "Error while grepping for ENV variables: " +:+ data) <$> chunks,
     Running)
  ∧ (ok inspect env events).2
    = (ok inspect env (List.filter is_stdout events)).2.
Proof.
  split.
  - induction chunks as [|data chunks IH]; [done|].
    rewrite !fmap_cons. cbn [ok on_event on_stderr]. by rewrite IH.
  - induction events as [|[data|data] events IH]; [done| |].
    + cbn [List.filter is_stdout ok].
      destruct (on_event inspect env (Stdout data)) as [o [|c]]; [|done].
      destruct (ok inspect env events), (ok inspect env (List.filter _ _)).
      done.
    + cbn [List.filter is_stdout ok on_event on_stderr].
      by destruct (ok inspect env events).
Qed.

(** X8.  Cutting the output at a line end.  When every line of [d1] is a
    usage the environment meets, the output [d1], line feed, [d2] gives
    the same printed lines and the same status whether it arrives as one
    chunk or as two chunks cut after the line feed: in both cases what the
    lines of [d2] give. *)
Theorem ok_chunks_cut_at_line_end
    (inspect : env_value → string) (env : gmap string string)
    (d1 d2 : string) (later : list event) :
  Forall (passes inspect env) (JsString.split "010" d1) →
  ok inspect env (Stdout (d1 +:+ LF +:+ d2) :: later)
  = ok inspect env (Stdout d2 :: later)
  ∧ ok inspect env (Stdout (d1 +:+ LF) :: Stdout d2 :: later)
    = ok inspect env (Stdout d2 :: later).
Proof.
  intros Hd1.
  assert (H1 : on_stdout inspect env (d1 +:+ LF +:+ d2)
               = on_stdout inspect env d2).
  { unfold on_stdout, LF. rewrite append_cons, append_nil, split_app.
    by rewrite for_lines_passes. }
  assert (H2 : on_stdout inspect env (d1 +:+ LF) = ([], Running)).
  { unfold on_stdout, LF. rewrite split_app. by rewrite for_lines_passes. }
  split.
  - cbn [ok on_event]. by rewrite H1.
  - cbn [ok on_event]. rewrite H2.
    by destruct (on_stdout inspect env d2) as [o [|c]];
      [destruct (ok inspect env later)|].
Qed.

Lemma ok_chunks_cut_at_line_end_witness :
  ok inspect_plain (<["PORT" := "80"]> ∅)
    [Stdout ("a.ts:ENV.num.PORT" +:+ LF +:+ chunk ["a.ts:ENV.HOST"])]
  = ok inspect_plain (<["PORT" := "80"]> ∅)
      [Stdout ("a.ts:ENV.num.PORT" +:+ LF); Stdout (chunk ["a.ts:ENV.HOST"])].
Proof.
  destruct (ok_chunks_cut_at_line_end inspect_plain (<["PORT" := "80"]> ∅)
              "a.ts:ENV.num.PORT" (chunk ["a.ts:ENV.HOST"]) [])
    as [H1 H2].
  - repeat constructor.
  - by rewrite H1, H2.
Defined.

(** X9.  What is checked depends on how the output is cut.  When a line of
    [d1] ends the callback (an empty line, an optional usage or a line
    that could not be parsed), the lines of [d2] are never checked if
    they arrive in the same chunk, and are checked as usual if they arrive
    in a chunk of their own. *)
Theorem ok_return_hides_rest_of_chunk_only
    (inspect : env_value → string) (env : gmap string string)
    (d1 d2 : string) (pre post : list string) (line : string)
    (out : list string) (later : list event) :
  JsString.split "010" d1 = pre ++ line :: post →
  Forall (passes inspect env) pre →
  check_line inspect env line = (out, Return) →
  ok inspect env (Stdout (d1 +:+ LF +:+ d2) :: later)
  = (out ++ (ok inspect env later).1, (ok inspect env later).2)
  ∧ ok inspect env (Stdout (d1 +:+ LF) :: Stdout d2 :: later)
    = (out ++ (ok inspect env (Stdout d2 :: later)).1,
       (ok inspect env (Stdout d2 :: later)).2).
Proof.
  intros Hsplit Hpre Hline.
  assert (H : ∀ d, on_stdout inspect env (d1 +:+ String "010" d)
                   = (out, Running)).
  { intros d.
    apply (on_stdout_stop inspect env _ pre (post ++ JsString.split "010" d)
             line out Return); [|done..].
    by rewrite split_app, Hsplit, <- app_assoc. }
  split.
  - unfold LF. rewrite append_cons, append_nil. cbn [ok on_event].
    rewrite H. by destruct (ok inspect env later).
  - unfold LF. cbn [ok on_event]. rewrite H.
    by destruct (on_stdout inspect env d2) as [o [|c]];
      [destruct (ok inspect env later)|].
Qed.

Lemma ok_return_hides_rest_of_chunk_only_witness :
  ok inspect_plain ∅
    [Stdout ("a.ts:ENV.opt.BAZ" +:+ LF +:+ chunk ["a.ts:ENV.FOO"])]
  = ([], Running)
  ∧ ok inspect_plain ∅
      [Stdout ("a.ts:ENV.opt.BAZ" +:+ LF); Stdout (chunk ["a.ts:ENV.FOO"])]
    = (["ENV found required field FOO, but given value undefined is incompatible."],
       Exited 1).
Proof.
  destruct (ok_return_hides_rest_of_chunk_only inspect_plain ∅
              "a.ts:ENV.opt.BAZ" (chunk ["a.ts:ENV.FOO"]) []
              [] "a.ts:ENV.opt.BAZ" [] [])
    as [H1 H2]; [reflexivity | constructor | reflexivity |].
  split; [exact H1 | exact H2].
Defined.

(** ** The validator and the accessor together *)

(** X10.  The validator lets a usage through exactly when the accessor
    will serve it.  For a line with a plain usage of a name other than
    [num], [opt] and [ok], the loop steps over the line if and only if the
    direct lookup of the name returns something other than the empty
    string; when the name is not a property name of [Object.prototype],
    that is: if and only if it returns a non-empty string.  For a line
    with a numeric usage, the loop steps over the line if and only if the
    numeric lookup returns a number other than [NaN]. *)
Theorem passes_iff_accessor_succeeds
    (inspect : env_value → string) (env : gmap string string)
    (line : string) (modifier : option string) (env_var : string) :
  Pattern.exec line = Some (modifier, env_var) →
  (modifier = None → ENV.reserved env_var = false →
   (passes inspect env line
    ↔ ∃ r, ENV.get env env_var = Ok r ∧ r ≠ Str EmptyString)
   ∧ (inherited env_var = false →
      (passes inspect env line
       ↔ ∃ v, v ≠ EmptyString ∧ ENV.get env env_var = Ok (Str v))))
  ∧ (modifier = Some "num." →
     (passes inspect env line
      ↔ ∃ n, ENV.num.get env env_var = Ok (Num n) ∧ n ≠ NaN)).
Proof.
  intros Hexec. unfold passes.
  rewrite (check_line_match _ _ _ _ _ Hexec). split.
  - intros -> Hres. rewrite (get_not_reserved _ _ Hres). simpl.
    unfold env_lookup.
    destruct (env !! env_var) as [[|c v]|]; simpl.
    + split; [|intros _]; split; try done.
      * by intros (r & [= <-] & Hr).
      * by intros (v & Hv & [= <-]).
    + split; [|intros _]; split; try done.
      * intros _. by exists (Str (String c v)).
      * intros _. by exists (String c v).
    + destruct (inherited env_var); simpl.
      * split; [|done]. split; [|done]. intros _. by eexists.
      * split; [|intros _]; split; try done.
        -- by intros (r & ? & _).
        -- by intros (v & _ & ?).
  - intros ->. unfold ENV.num.get, num_incompatible, env_lookup. simpl.
    destruct (env !! env_var) as [[|c v]|]; simpl.
    + split; [done|]. by intros (n & [= <-] & Hn).
    + destruct (ParseInt.parseInt (String c v)) as [|z| |b] eqn:Hp; simpl;
        split; try done; try (intros _; by eexists).
      by intros (n & [= <-] & Hn).
    + destruct (inherited env_var); simpl; split; try done.
      * by intros (n & [= <-] & Hn).
      * by intros (n & ? & _).
Qed.

Lemma passes_iff_accessor_succeeds_witness :
  passes inspect_plain (<["PORT" := "8080"]> ∅) "a.ts:listen(ENV.num.PORT)"
  ∧ ¬ passes inspect_plain (<["HOST" := ""]> ∅) "a.ts:connect(ENV.HOST)"
  ∧ passes inspect_plain ∅ "a.ts:ENV.toString".
Proof.
  destruct (passes_iff_accessor_succeeds inspect_plain
              (<["PORT" := "8080"]> ∅) "a.ts:listen(ENV.num.PORT)"
              (Some "num.") "PORT" eq_refl) as [_ Hnum].
  destruct (passes_iff_accessor_succeeds inspect_plain
              (<["HOST" := ""]> ∅) "a.ts:connect(ENV.HOST)"
              None "HOST" eq_refl) as [Hstr _].
  destruct (passes_iff_accessor_succeeds inspect_plain
              ∅ "a.ts:ENV.toString" None "toString" eq_refl) as [Hproto _].
  split; [|split].
  - apply (Hnum eq_refl). by exists (Int 8080).
  - intros Hpass.
    apply (proj2 (Hstr eq_refl eq_refl) eq_refl) in Hpass as (v & Hv & Hget).
    injection Hget as <-. by apply Hv.
  - apply (proj1 (Hproto eq_refl eq_refl)). by exists (Prototype "toString").
Defined.

(** X11.  The three lookups on one name, for a name other than [num],
    [opt] and [ok].  The direct and the numeric lookup throw on the same
    names, with the same error, and these are the names for which the
    optional lookup gives [undefined]; when the direct lookup returns a
    string, the optional lookup returns the same string and the numeric
    lookup returns [parseInt] of it. *)
Theorem lookups_agree (env : gmap string string) (name : string) :
  ENV.reserved name = false →
  (∀ e, ENV.get env name = Throw e ↔ ENV.num.get env name = Throw e)
  ∧ (∀ e, ENV.get env name = Throw e →
          e = MissingRequiredVariable name
          ∧ ENV.opt.get env name = Ok Undefined)
  ∧ (ENV.opt.get env name = Ok Undefined →
     ENV.get env name = Throw (MissingRequiredVariable name))
  ∧ (∀ v, ENV.get env name = Ok (Str v) ↔ ENV.opt.get env name = Ok (Str v))
  ∧ (∀ v, ENV.get env name = Ok (Str v) →
          ENV.num.get env name = Ok (Num (ParseInt.parseInt v))).
Proof.
  intros Hres. rewrite (get_not_reserved _ _ Hres).
  unfold ENV.num.get, ENV.opt.get, process_env.
  destruct (env_lookup env name) as [|v|inh]; simpl; repeat split; try done;
    try (intros; simplify_eq; done).
Qed.

Lemma lookups_agree_witness :
  ENV.opt.get (<["PORT" := "80"]> ∅) "PORT" = Ok (Str "80")
  ∧ ENV.num.get (<["PORT" := "80"]> ∅) "PORT" = Ok (Num (Int 80))
  ∧ ENV.num.get (<["PORT" := "80"]> ∅) "HOST"
    = Throw (MissingRequiredVariable "HOST").
Proof.
  destruct (lookups_agree (<["PORT" := "80"]> ∅) "PORT" eq_refl)
    as (_ & _ & _ & Hopt & Hnum).
  destruct (lookups_agree (<["PORT" := "80"]> ∅) "HOST" eq_refl)
    as (Hthrow & _).
  split; [|split].
  - by apply Hopt.
  - by apply (Hnum "80").
  - by apply Hthrow.
Defined.

(** ** Numeric values *)

Lemma strip_sign_none (c : ascii) (s : string) :
  c ≠ "+"%char → c ≠ "-"%char →
  ParseInt.strip_sign (String c s) = (1, String c s).
Proof.
  intros Hplus Hminus. unfold ParseInt.strip_sign.
  destruct c as [[] [] [] [] [] [] [] []]; done.
Qed.

Lemma digit_value_nonneg (c : ascii) (d : Z) :
  ParseInt.digit_value c = Some d → 0 <= d.
Proof.
  unfold ParseInt.digit_value.
  repeat case_match; intros [= <-]; lia.
Qed.

Lemma radix_digits_nonneg (R : Z) (s : string) :
  Forall (λ d, 0 <= d) (ParseInt.radix_digits R s).
Proof.
  induction s as [|c s IH]; simpl; [done|].
  destruct (ParseInt.digit_value c) as [d|] eqn:Hd; [|done].
  destruct (d <? R); [|done].
  constructor; [by apply (digit_value_nonneg c)|done].
Qed.

Lemma mathInt_nonneg (R : Z) (ds : list Z) :
  0 <= R → Forall (λ d, 0 <= d) ds → 0 <= ParseInt.mathInt R ds.
Proof.
  intros HR Hds. unfold ParseInt.mathInt.
  assert (H : ∀ acc, 0 <= acc →
            0 <= fold_left (λ acc d, acc * R + d) ds acc).
  { induction Hds as [|d ds Hd _ IH]; intros acc Hacc; [done|].
    simpl. apply IH. nia. }
  by apply H.
Qed.

Lemma strip_radix_radix (s : string) : 0 <= (ParseInt.strip_radix s).1.
Proof.
  unfold ParseInt.strip_radix. repeat case_match; simpl; lia.
Qed.

(** A positive integer rounds to a positive integer. *)
Lemma nearest_double_pos (z : Z) : 0 < z → 0 < ParseInt.nearest_double z.
Proof.
  intros Hz. unfold ParseInt.nearest_double.
  destruct (Z.leb_spec (Z.log2 z - 52) 0) as [|Hk]; [done|].
  set (k := Z.log2 z - 52) in *.
  assert (Hpow : 0 < 2 ^ k) by (apply Z.pow_pos_nonneg; lia).
  assert (Hq : 1 <= z / 2 ^ k).
  { apply Z.div_le_lower_bound; [done|].
    destruct (Z.log2_spec z Hz) as [Hlo _].
    transitivity (2 ^ Z.log2 z); [|done].
    rewrite Z.mul_1_r. apply Z.pow_le_mono_r; lia. }
  repeat case_match; nia.
Qed.

(** The sign goes through the rounding. *)
Lemma to_Number_negate (z : Z) :
  0 <= z → ParseInt.to_Number (-1) z = negate (ParseInt.to_Number 1 z).
Proof.
  intros Hz. unfold ParseInt.to_Number.
  destruct (Z.eqb_spec z 0) as [->|Hne]; [done|].
  pose proof (nearest_double_pos z ltac:(lia)) as Hpos.
  simpl. destruct (2 ^ 1024 <=? ParseInt.nearest_double z); [done|].
  destruct (ParseInt.nearest_double z); [lia | done | lia].
Qed.

(** X12.  A value that starts with the decimal digits of a natural number
    [n], followed by anything that does not go on with a digit (and, for
    0, not with [x] or [X]), is a value the validator accepts for a numeric
    usage, and the numeric lookup reads it as the double nearest to [n]:
    as [n] itself whenever [n] is at most 2^53.  Up to that bound,
    printing a number and reading it back through [ENV.num] gives the
    number. *)
Theorem num_decimal_round_trip
    (inspect : env_value → string) (env : gmap string string)
    (name : string) (n : N) (rest : string) :
  env !! name = Some (NilEmpty.string_of_uint (N.to_uint n) +:+ rest) →
  ParseInt.radix_digits 10 rest = [] →
  (n = 0%N → ∀ r, rest ≠ String "x" r ∧ rest ≠ String "X" r) →
  ENV.num.get env name = Ok (Num (ParseInt.to_Number 1 (Z.of_N n)))
  ∧ (Z.of_N n <= 2 ^ 53 → ENV.num.get env name = Ok (Num (Int (Z.of_N n))))
  ∧ ∀ line, Pattern.exec line = Some (Some "num.", name) →
            check_line inspect env line = ([], Next).
Proof.
  intros Hv Hrest Hhex.
  pose proof (parseInt_of_N n rest Hrest Hhex) as Hparse.
  assert (Hget : ENV.num.get env name
                 = Ok (Num (ParseInt.to_Number 1 (Z.of_N n)))).
  { unfold ENV.num.get. rewrite (env_lookup_set _ _ _ Hv). simpl.
    by rewrite Hparse. }
  split; [done|]. split.
  - intros Hle. rewrite Hget, to_Number_exact; [done | lia].
  - intros line Hexec.
    rewrite (check_line_match _ _ _ _ _ Hexec), (env_lookup_set _ _ _ Hv).
    unfold num_incompatible. simpl ParseInt.parseInt_value.
    rewrite Hparse, to_Number_not_NaN, orb_false_r. simpl.
    assert (Hne : N.to_uint n ≠ Decimal.Nil).
    { destruct n; [done|]. apply DecimalPos.Unsigned.to_uint_nonnil. }
    by destruct (N.to_uint n).
Qed.

Lemma num_decimal_round_trip_witness :
  ENV.num.get (<["PORT" := "8080/tcp"]> ∅) "PORT" = Ok (Num (Int 8080))
  ∧ check_line inspect_plain (<["PORT" := "8080/tcp"]> ∅)
      "a.ts:listen(ENV.num.PORT)" = ([], Next).
Proof.
  destruct (num_decimal_round_trip inspect_plain
              (<["PORT" := "8080/tcp"]> ∅) "PORT" 8080%N "/tcp")
    as (_ & Hget & Hline); [reflexivity | reflexivity | discriminate |].
  split; [apply Hget; by vm_compute | by apply Hline].
Defined.

(** X13.  Sign and white space in a numeric value.  White space in front
    of the value is skipped.  In front of a value that starts with neither
    white space nor a sign, a minus sign negates what the numeric lookup
    returns ([NaN] stays [NaN]) and a plus sign changes nothing. *)
Theorem num_get_sign_and_space
    (env : gmap string string) (name : string) (c : ascii) (s : string) :
  (ParseInt.is_white_space c = true →
   env !! name = Some (String c s) →
   ENV.num.get env name = Ok (Num (ParseInt.parseInt s)))
  ∧ (ParseInt.is_white_space c = false → c ≠ "+"%char → c ≠ "-"%char →
     (env !! name = Some (String "-" (String c s)) →
      ENV.num.get env name
      = Ok (Num (negate (ParseInt.parseInt (String c s)))))
     ∧ (env !! name = Some (String "+" (String c s)) →
        ENV.num.get env name = Ok (Num (ParseInt.parseInt (String c s))))).
Proof.
  unfold ENV.num.get. split.
  - intros Hws Hv. rewrite (env_lookup_set _ _ _ Hv). simpl.
    unfold ParseInt.parseInt. simpl. by rewrite Hws.
  - intros Hws Hplus Hminus.
    assert (Hsigned : ∀ sign,
              (let '(R, s') := ParseInt.strip_radix (String c s) in
               match ParseInt.radix_digits R s' with
               | [] => NaN
               | ds => ParseInt.to_Number sign (ParseInt.mathInt R ds)
               end)
              = match ParseInt.radix_digits
                        (ParseInt.strip_radix (String c s)).1
                        (ParseInt.strip_radix (String c s)).2 with
                | [] => NaN
                | ds => ParseInt.to_Number sign
                          (ParseInt.mathInt
                             (ParseInt.strip_radix (String c s)).1 ds)
                end).
    { intros sign. by destruct (ParseInt.strip_radix (String c s)). }
    assert (Hplain : ParseInt.parseInt (String c s)
              = match ParseInt.radix_digits
                        (ParseInt.strip_radix (String c s)).1
                        (ParseInt.strip_radix (String c s)).2 with
                | [] => NaN
                | ds => ParseInt.to_Number 1
                          (ParseInt.mathInt
                             (ParseInt.strip_radix (String c s)).1 ds)
                end).
    { unfold ParseInt.parseInt. simpl ParseInt.trim_start. rewrite Hws.
      by rewrite strip_sign_none, Hsigned. }
    split; intros Hv; rewrite (env_lookup_set _ _ _ Hv); simpl;
      f_equal; f_equal; rewrite Hplain;
      unfold ParseInt.parseInt; simpl ParseInt.trim_start;
      simpl ParseInt.strip_sign; cbv beta iota; rewrite Hsigned; [|done].
    pose proof (radix_digits_nonneg (ParseInt.strip_radix (String c s)).1
                  (ParseInt.strip_radix (String c s)).2) as Hds.
    destruct (ParseInt.radix_digits _ _) as [|d ds]; [done|].
    apply to_Number_negate, mathInt_nonneg; [apply strip_radix_radix|done].
Qed.

Lemma num_get_sign_and_space_witness :
  ENV.num.get (<["OFFSET" := " -5"]> ∅) "OFFSET" = Ok (Num (Int (-5)))
  ∧ ENV.num.get (<["OFFSET" := "-5"]> ∅) "OFFSET" = Ok (Num (Int (-5)))
  ∧ ENV.num.get (<["OFFSET" := "+5"]> ∅) "OFFSET" = Ok (Num (Int 5)).
Proof.
  destruct (num_get_sign_and_space (<["OFFSET" := " -5"]> ∅) "OFFSET"
              " " "-5") as [Hspace _].
  destruct (num_get_sign_and_space (<["OFFSET" := "-5"]> ∅) "OFFSET"
              "5" "") as [_ Hsign].
  destruct (num_get_sign_and_space (<["OFFSET" := "+5"]> ∅) "OFFSET"
              "5" "") as [_ Hsign'].
  split; [|split].
  - by apply Hspace.
  - by apply Hsign.
  - by apply Hsign'.
Defined.

(** ** Whole lines *)

Lemma split_free (sep : ascii) (s : string) :
  free_of sep s = true → JsString.split sep s = [s].
Proof.
  induction s as [|c s IH]; simpl; [done|].
  intros [Hc Hs]%andb_true_iff. apply negb_true_iff in Hc.
  by rewrite Hc, IH.
Qed.

Lemma split_chunk (lines : list string) :
  Forall (λ line, free_of "010" line = true) lines →
  JsString.split "010" (chunk lines) = lines ++ [EmptyString].
Proof.
  induction 1 as [|line lines Hline _ IH]; [done|].
  simpl chunk. unfold LF. rewrite append_cons, append_nil, split_app.
  by rewrite (split_free _ _ Hline), IH.
Qed.

(** X14.  When the search output arrives in whole lines -- each line
    followed by a line feed -- the loop sees exactly these lines, in
    order, and then the empty piece after the last line feed, which ends
    the callback and changes nothing: the chunk prints what the loop over
    the lines prints and exits if and only if that loop does. *)
Theorem on_stdout_whole_lines
    (inspect : env_value → string) (env : gmap string string)
    (lines : list string) :
  Forall (λ line, free_of "010" line = true) lines →
  JsString.split "010" (chunk lines) = lines ++ [EmptyString]
  ∧ on_stdout inspect env (chunk lines)
    = ((for_lines inspect env lines).1, after (for_lines inspect env lines).2).
Proof.
  intros Hlines. pose proof (split_chunk lines Hlines) as Hsplit.
  split; [done|]. unfold on_stdout. rewrite Hsplit. clear.
  induction lines as [|line lines IH]; [done|].
  simpl. destruct (check_line inspect env line) as [o [| |code]]; try done.
  destruct (for_lines inspect env (lines ++ [EmptyString])) as [o1 c1].
  destruct (for_lines inspect env lines) as [o2 c2].
  simpl in *. by injection IH as -> ->.
Qed.

Lemma on_stdout_whole_lines_witness :
  on_stdout inspect_plain (<["PORT" := "80"]> ∅)
    (chunk ["a.ts:ENV.num.PORT"; "a.ts:ENV.HOST"])
  = ((for_lines inspect_plain (<["PORT" := "80"]> ∅)
        ["a.ts:ENV.num.PORT"; "a.ts:ENV.HOST"]).1,
     after (for_lines inspect_plain (<["PORT" := "80"]> ∅)
              ["a.ts:ENV.num.PORT"; "a.ts:ENV.HOST"]).2).
Proof.
  apply (on_stdout_whole_lines inspect_plain (<["PORT" := "80"]> ∅)
           ["a.ts:ENV.num.PORT"; "a.ts:ENV.HOST"]).
  repeat constructor.
Defined.
